(** * Quote generation and refresh scheduling of the market-making scripts

    A shallow embedding of [scripts/RSI-AMM.py] (class [RSIAMM]) and of
    [scripts/quickstart_script_2_statusmode.py] (class [QuickstartScript2]).

    Numbers.  Python [int] configuration fields are [Z]; [float] and
    [Decimal] values (prices, amounts, timestamps, indicator readings) are
    exact rationals [Q], compared with [==]: rounding of binary floats and
    of the decimal context, and NaN cells, are outside the model.

    Effects.  A method of a strategy is a computation in the monad [M]:
    it threads a world (the fields of [self] together with the trace of
    the calls made to the venue and to the logger) and either returns or
    raises a Python exception.  [try ... except Exception] is [catch]. *)

From Stdlib Require Import QArith Lqa ZArith List String Bool Lia.
Import ListNotations.
Open Scope Q_scope.

(** ** Rational comparisons as booleans *)

Definition Qltb (a b : Q) : bool :=
  match a ?= b with Lt => true | _ => false end.

(** ** Exceptions, orders, events *)

Inductive exn : Type :=
| AttributeError   (* attribute access on [None] *)
| IndexError       (* [iloc[-1]] / [iat[-1, -1]] on an empty frame or series *)
| KeyError         (* a column that is not in the row *)
| ConnectorError (code : nat).   (* anything a venue call raises *)

Inductive TradeType : Type := BUY | SELL | RANGE.

Inductive OrderType : Type := MARKET | LIMIT | LIMIT_MAKER.

Record OrderCandidate : Type := mkOrderCandidate {
  trading_pair : string;
  is_maker     : bool;
  order_type   : OrderType;
  order_side   : TradeType;
  amount       : Q;
  price        : Q
}.

(** A resting order as [get_active_orders] reports it. *)
Record LimitOrder : Type := mkLimitOrder {
  lo_trading_pair    : string;
  client_order_id    : nat
}.

Record OrderFilledEvent : Type := mkOrderFilledEvent {
  ev_trade_type   : TradeType;
  ev_trading_pair : string;
  ev_amount       : Q;
  ev_price        : Q
}.

(** What the scripts write to the log, one constructor per format string. *)
Inductive message : Type :=
| MsgMidPrice (mid : Q)
| MsgRsiValue (rsi : Q)
| MsgRsiOver (high : Z)
| MsgRsiUnder (low : Z)
| MsgAdjustedMid (adjusted : Q)
| MsgFill (ev : OrderFilledEvent) (exchange : string)
| MsgOrdersPlaced
| MsgNotReady
| MsgError (where_ : string) (e : exn).

(** The calls a strategy makes on its collaborators, in program order.
    A venue call is recorded when it is made, whether it then returns or
    raises: the trace lists the operations that were attempted. *)
Inductive event : Type :=
| Cancel (exchange : string) (pair : string) (id : nat)
| Buy  (exchange : string) (o : OrderCandidate)
| Sell (exchange : string) (o : OrderCandidate)
| Log (m : message)
| Notify (m : message).

(** ** The monad of strategy methods *)

Inductive outcome (A : Type) : Type :=
| Return (a : A)
| Raise (e : exn).
Arguments Return {A} a.
Arguments Raise {A} e.

Record world (S : Type) : Type := mkWorld {
  self  : S;
  trace : list event
}.
Arguments mkWorld {S} self trace.
Arguments self {S} w.
Arguments trace {S} w.

Definition M (S A : Type) : Type := world S -> outcome A * world S.

Definition ret {S A} (a : A) : M S A := fun w => (Return a, w).

Definition raise {S A} (e : exn) : M S A := fun w => (Raise e, w).

Definition bind {S A B} (m : M S A) (k : A -> M S B) : M S B :=
  fun w => match m w with
           | (Return a, w') => k a w'
           | (Raise e, w') => (Raise e, w')
           end.

(** [try: m except Exception as e: h e] *)
Definition catch {S A} (m : M S A) (h : exn -> M S A) : M S A :=
  fun w => match m w with
           | (Return a, w') => (Return a, w')
           | (Raise e, w') => h e w'
           end.

Declare Scope monad_scope.
Delimit Scope monad_scope with monad.
Notation "x <- m ;; k" := (bind m (fun x => k))
  (at level 61, m at next level, right associativity) : monad_scope.
Notation "m ;; k" := (bind m (fun _ => k))
  (at level 61, right associativity) : monad_scope.
Open Scope monad_scope.

Definition get_self {S} : M S S := fun w => (Return (self w), w).

Definition set_self {S} (s : S) : M S unit :=
  fun w => (Return tt, mkWorld s (trace w)).

Definition emit {S} (e : event) : M S unit :=
  fun w => (Return tt, mkWorld (self w) (trace w ++ [e])).

(** A value that the caller obtained from a fallible call. *)
Definition lift {S A} (o : outcome A) : M S A := fun w => (o, w).

(** [if c: m] *)
Definition when {S} (c : bool) (m : M S unit) : M S unit :=
  if c then m else ret tt.

(** [for x in xs: body x] *)
Fixpoint for_each {S A} (xs : list A) (body : A -> M S unit) : M S unit :=
  match xs with
  | [] => ret tt
  | x :: rest => body x ;; for_each rest body
  end.

(** ** The venue (connector), seen from a script

    [price_by_type] is the answer of [get_price_by_type];
    [available_balance] is what the budget checker may commit;
    [raises_on_cancel] and [raises_on_submit] say which calls the
    connector answers with an exception. *)
Record Connector : Type := mkConnector {
  current_timestamp : Q;
  active_orders     : list LimitOrder;
  price_by_type     : outcome Q;
  available_balance : Q;
  raises_on_cancel  : LimitOrder -> option exn;
  raises_on_submit  : OrderCandidate -> option exn
}.

Definition fail_with {S} (r : option exn) : M S unit :=
  match r with
  | Some e => raise e
  | None => ret tt
  end.

(** [self.cancel(exchange, trading_pair, client_order_id)] *)
Definition cancel {S} (c : Connector) (exchange : string) (o : LimitOrder)
  : M S unit :=
  emit (Cancel exchange (lo_trading_pair o) (client_order_id o)) ;;
  fail_with (raises_on_cancel c o).

(** [self.buy(...)] and [self.sell(...)] *)
Definition buy {S} (c : Connector) (exchange : string) (o : OrderCandidate)
  : M S unit :=
  emit (Buy exchange o) ;; fail_with (raises_on_submit c o).

Definition sell {S} (c : Connector) (exchange : string) (o : OrderCandidate)
  : M S unit :=
  emit (Sell exchange o) ;; fail_with (raises_on_submit c o).

Definition log {S} (m : message) : M S unit := emit (Log m).

Definition notify_hb_app_with_timestamp {S} (m : message) : M S unit :=
  emit (Notify m).

(** ** Reading the trace *)

Definition is_cancel (e : event) : bool :=
  match e with Cancel _ _ _ => true | _ => false end.

Definition is_submit (e : event) : bool :=
  match e with Buy _ _ | Sell _ _ => true | _ => false end.

Definition cancels (t : list event) : list event := filter is_cancel t.

Definition submits (t : list event) : list event := filter is_submit t.

(** [pandas]: the last element of a series, [s.iloc[-1]]. *)
Definition iloc_last (s : list Q) : outcome Q :=
  match rev s with
  | [] => Raise IndexError
  | x :: _ => Return x
  end.

(** [pandas]: the last cell of the last row of a frame, [df.iat[-1, -1]]. *)
Definition iat_last_last (df : list (list Q)) : outcome Q :=
  match rev df with
  | [] => Raise IndexError
  | row :: _ => iloc_last row
  end.

(** ** scripts/RSI-AMM.py *)

Module RSIAMMConfig.

Record t : Type := mk {
  exchange               : string;
  trading_pair           : string;
  order_amount           : Q;
  order_refresh_time     : Z;
  rsi_high               : Z;
  rsi_low                : Z;
  interval               : string;
  natr_period            : Z;
  natr_spread_multiplier : Q;
  max_records            : Z;
  rsi_spread_change      : Q
}.

(** The defaults of the [Field]s. *)
Definition default : t :=
  {| exchange := "binance"; trading_pair := "BTC-USDT";
     order_amount := 3 # 10000; order_refresh_time := 15;
     rsi_high := 70; rsi_low := 30; interval := "3m";
     natr_period := 100; natr_spread_multiplier := 1 # 2;
     max_records := 1000; rsi_spread_change := 1 # 2 |}.

End RSIAMMConfig.

Module RSIAMM.

(** The fields of [self] that the script assigns. *)
Record State : Type := mkState {
  create_timestamp : Q;
  last_mid_price   : option Q
}.

(** Class attributes [create_timestamp = 0], [last_mid_price = None]. *)
Definition init : State :=
  {| create_timestamp := 0; last_mid_price := None |}.

(** What the candle feed and [pandas_ta] hand to the script in one tick:
    - [ready]: [market_data_provider.ready];
    - [processed_df]: the frame [candles[0].candles_df] as it is after
      [candles_df.ta.rsi(length=7, append=True)], a list of rows;
    - [natr]: the result of [ta.natr(high, low, close, length=natr_period)],
      a series of percentages, or [None] when the library returns no
      series (a window shorter than the period). *)
Record MarketData : Type := mkMarketData {
  ready        : bool;
  processed_df : list (list Q);
  natr         : option (list Q)
}.

Section Strategy.

Variable config : RSIAMMConfig.t.
Variable market_data_provider : MarketData.
Variable connector : Connector.

Let exchange := RSIAMMConfig.exchange config.

(** [natr.iloc[-1] / 100] *)
Definition get_natr : M State Q :=
  match natr market_data_provider with
  | None => raise AttributeError
  | Some series => last_ <- lift (iloc_last series) ;; ret (last_ / 100)
  end.

Definition get_processed_df : M State (list (list Q)) :=
  ret (processed_df market_data_provider).

Definition get_rsi_signal : M State Z :=
  candles_df <- get_processed_df ;;
  rsi_value <- lift (iat_last_last candles_df) ;;
  log (MsgRsiValue rsi_value) ;;
  if Qltb (inject_Z (RSIAMMConfig.rsi_high config)) rsi_value then
    log (MsgRsiOver (RSIAMMConfig.rsi_high config)) ;;
    ret (-1)%Z
  else if Qltb rsi_value (inject_Z (RSIAMMConfig.rsi_low config)) then
    log (MsgRsiUnder (RSIAMMConfig.rsi_low config)) ;;
    ret 1%Z
  else
    ret 0%Z.

(** The locals [adjusted_mid_price], [buy_price] and [sell_price] of
    [create_proposal]. *)
Definition adjusted_mid_price (mid_price natr_ : Q) (rsi_signal : Z) : Q :=
  if (rsi_signal =? 1)%Z then
    mid_price * (1 + RSIAMMConfig.natr_spread_multiplier config * natr_
                     * RSIAMMConfig.rsi_spread_change config)
  else if (rsi_signal =? -1)%Z then
    mid_price * (1 - RSIAMMConfig.natr_spread_multiplier config * natr_
                     * RSIAMMConfig.rsi_spread_change config)
  else
    mid_price.

Definition buy_price (adjusted natr_ : Q) : Q :=
  adjusted * (1 - RSIAMMConfig.natr_spread_multiplier config * natr_).

Definition sell_price (adjusted natr_ : Q) : Q :=
  adjusted * (1 + RSIAMMConfig.natr_spread_multiplier config * natr_).

Definition create_proposal (mid_price : Q) : M State (list OrderCandidate) :=
  natr_ <- get_natr ;;
  rsi_signal <- get_rsi_signal ;;
  let adjusted := adjusted_mid_price mid_price natr_ rsi_signal in
  log (MsgAdjustedMid adjusted) ;;
  let buy_order :=
    {| trading_pair := RSIAMMConfig.trading_pair config; is_maker := true;
       order_type := LIMIT; order_side := BUY;
       amount := RSIAMMConfig.order_amount config;
       price := buy_price adjusted natr_ |} in
  let sell_order :=
    {| trading_pair := RSIAMMConfig.trading_pair config; is_maker := true;
       order_type := LIMIT; order_side := SELL;
       amount := RSIAMMConfig.order_amount config;
       price := sell_price adjusted natr_ |} in
  ret [buy_order; sell_order].

Definition place_order (connector_name : string) (order : OrderCandidate)
  : M State unit :=
  match order_side order with
  | SELL => sell connector connector_name order
  | BUY => buy connector connector_name order
  | RANGE => ret tt
  end.

Definition place_orders (proposal : list OrderCandidate) : M State unit :=
  for_each proposal (fun order => place_order exchange order).

Definition cancel_all_orders : M State unit :=
  for_each (active_orders connector)
           (fun order => cancel connector exchange order).

Definition on_tick : M State unit :=
  if negb (ready market_data_provider) then ret tt
  else
    st <- get_self ;;
    when (Qle_bool (create_timestamp st) (current_timestamp connector))
      (cancel_all_orders ;;
       mid_price <- lift (price_by_type connector) ;;
       log (MsgMidPrice mid_price) ;;
       proposal <- create_proposal mid_price ;;
       place_orders proposal ;;
       st' <- get_self ;;
       set_self
         {| create_timestamp :=
              inject_Z (RSIAMMConfig.order_refresh_time config)
              + current_timestamp connector;
            last_mid_price := last_mid_price st' |}).

Definition did_fill_order (event_ : OrderFilledEvent) : M State unit :=
  let msg := MsgFill event_ exchange in
  log msg ;;
  notify_hb_app_with_timestamp msg.

End Strategy.

End RSIAMM.

(** ** The budget checker of the connector *)

(** Notional of a proposal list: the sum of [price * amount]. *)
Fixpoint total_notional (proposal : list OrderCandidate) : Q :=
  match proposal with
  | [] => 0
  | order :: rest => price order * amount order + total_notional rest
  end.

(** Modelled from the spec: [budget_checker.adjust_candidates(proposal,
    all_or_none=True)] of the connector, whose code is not among the
    scripts.  The spec's words: in all-or-none mode, if the total requested
    notional exceeds the available balance the output is the empty
    sequence, otherwise the output equals the input. *)
Definition adjust_candidates_all_or_none
  (c : Connector) (proposal : list OrderCandidate) : list OrderCandidate :=
  if Qltb (available_balance c) (total_notional proposal) then []
  else proposal.

(** ** scripts/quickstart_script_2_statusmode.py *)

Module QuickstartScript2.

(** Class attributes. *)
Definition bid_spread : Q := 2 # 100.
Definition ask_spread : Q := 2 # 100.
Definition order_refresh_time : Z := 15.
Definition order_amount : Q := 40.
Definition script_trading_pair : string := "POPCAT-USDT".
Definition exchange : string := "gate_io_paper_trade".

(** The fields of [self] that the script assigns. *)
Record State : Type := mkState {
  create_timestamp : Q;
  price_ceiling    : Q;
  price_floor      : Q
}.

(** [create_timestamp = 0] and, in [__init__], [price_ceiling] and
    [price_floor] set to [Decimal("0")]. *)
Definition init : State :=
  {| create_timestamp := 0; price_ceiling := 0; price_floor := 0 |}.

(** A row of [eth_1m_candles.candles_df] after
    [candles_df.ta.bbands(length=100, std=2, append=True)]: the close and,
    when the library appended its band columns (it appends them together
    or not at all), the cells [BBU_100_2.0] and [BBL_100_2.0]. *)
Record Row : Type := mkRow {
  close : Q;
  bands : option (Q * Q)
}.

Record Candles : Type := mkCandles {
  is_ready   : bool;
  candles_df : list Row
}.

(** [candles_df.iloc[-1]] *)
Definition iloc_last_row (df : list Row) : outcome Row :=
  match rev df with
  | [] => Raise IndexError
  | row :: _ => Return row
  end.

(** [last_row['BBU_100_2.0'].item()] and [last_row['BBL_100_2.0'].item()] *)
Definition BBU (row : Row) : outcome Q :=
  match bands row with
  | Some (upper, _) => Return upper
  | None => Raise KeyError
  end.

Definition BBL (row : Row) : outcome Q :=
  match bands row with
  | Some (_, lower) => Return lower
  | None => Raise KeyError
  end.

(** The loop of [apply_price_ceiling_floor_filter]; [kept] is
    [proposal_filtered]. *)
Fixpoint filter_loop (st : State) (proposal kept : list OrderCandidate)
  : list OrderCandidate :=
  match proposal with
  | [] => kept
  | order :: rest =>
      match order_side order with
      | SELL =>
          if Qltb (price_floor st) (price order)
          then filter_loop st rest (kept ++ [order])
          else filter_loop st rest kept
      | BUY =>
          if Qltb (price order) (price_ceiling st)
          then filter_loop st rest (kept ++ [order])
          else filter_loop st rest kept
      | RANGE => filter_loop st rest kept
      end
  end.

Section Strategy.

Variable eth_1m_candles : Candles.
Variable connector : Connector.

Definition create_proposal : M State (list OrderCandidate) :=
  catch
    (ref_price <- lift (price_by_type connector) ;;
     let buy_price := ref_price * (1 - bid_spread) in
     let sell_price := ref_price * (1 + ask_spread) in
     let buy_order :=
       {| trading_pair := script_trading_pair; is_maker := true;
          order_type := LIMIT; order_side := BUY;
          amount := order_amount; price := buy_price |} in
     let sell_order :=
       {| trading_pair := script_trading_pair; is_maker := true;
          order_type := LIMIT; order_side := SELL;
          amount := order_amount; price := sell_price |} in
     ret [buy_order; sell_order])
    (fun e => log (MsgError "create_proposal" e) ;; ret []).

Definition adjust_proposal_to_budget (proposal : list OrderCandidate)
  : M State (list OrderCandidate) :=
  catch
    (let proposal_adjusted :=
       adjust_candidates_all_or_none connector proposal in
     ret proposal_adjusted)
    (fun e => log (MsgError "adjust_proposal_to_budget" e) ;; ret []).

Definition place_order (connector_name : string) (order : OrderCandidate)
  : M State unit :=
  catch
    (match order_side order with
     | SELL => sell connector connector_name order
     | BUY => buy connector connector_name order
     | RANGE => ret tt
     end)
    (fun e => log (MsgError "place_order" e)).

Definition place_orders (proposal : list OrderCandidate) : M State unit :=
  catch
    (for_each proposal (fun order => place_order exchange order))
    (fun e => log (MsgError "place_orders" e)).

Definition cancel_all_orders : M State unit :=
  catch
    (for_each (active_orders connector)
              (fun order => cancel connector exchange order))
    (fun e => log (MsgError "cancel_all_orders" e)).

Definition did_fill_order (event_ : OrderFilledEvent) : M State unit :=
  catch
    (let msg := MsgFill event_ exchange in
     log msg ;;
     notify_hb_app_with_timestamp msg)
    (fun e => log (MsgError "did_fill_order" e)).

Definition apply_price_ceiling_floor_filter (proposal : list OrderCandidate)
  : M State (list OrderCandidate) :=
  catch
    (st <- get_self ;;
     ret (filter_loop st proposal []))
    (fun e => log (MsgError "apply_price_ceiling_floor_filter" e) ;; ret []).

Definition calculate_price_ceiling_floor : M State unit :=
  catch
    (last_row <- lift (iloc_last_row (candles_df eth_1m_candles)) ;;
     upper <- lift (BBU last_row) ;;
     st <- get_self ;;
     set_self {| create_timestamp := create_timestamp st;
                 price_ceiling := upper;
                 price_floor := price_floor st |} ;;
     lower <- lift (BBL last_row) ;;
     st <- get_self ;;
     set_self {| create_timestamp := create_timestamp st;
                 price_ceiling := price_ceiling st;
                 price_floor := lower |})
    (fun e => log (MsgError "calculate_price_ceiling_floor" e)).

Definition on_tick : M State unit :=
  catch
    (st <- get_self ;;
     when (Qle_bool (create_timestamp st) (current_timestamp connector))
       (if is_ready eth_1m_candles then
          cancel_all_orders ;;
          calculate_price_ceiling_floor ;;
          proposal <- create_proposal ;;
          proposal_filtered <- apply_price_ceiling_floor_filter proposal ;;
          proposal_adjusted <- adjust_proposal_to_budget proposal_filtered ;;
          place_orders proposal_adjusted ;;
          st' <- get_self ;;
          set_self {| create_timestamp :=
                        inject_Z order_refresh_time
                        + current_timestamp connector;
                      price_ceiling := price_ceiling st';
                      price_floor := price_floor st' |} ;;
          log MsgOrdersPlaced
        else
          log MsgNotReady))
    (fun e => log (MsgError "on_tick" e)).

End Strategy.

End QuickstartScript2.

(** ** Readings used by the statements *)

(** The band filter in the words of the specification: a SELL is kept when
    its price is strictly above the floor, a BUY when its price is strictly
    below the ceiling. *)
Definition band_keeps (ceiling floor : Q) (o : OrderCandidate) : bool :=
  match order_side o with
  | SELL => Qltb floor (price o)
  | BUY => Qltb (price o) ceiling
  | RANGE => false
  end.

(** The venue call that [place_order] makes for one proposal. *)
Definition submission (exchange : string) (o : OrderCandidate) : list event :=
  match order_side o with
  | SELL => [Sell exchange o]
  | BUY => [Buy exchange o]
  | RANGE => []
  end.


(** The signal [get_rsi_signal] computes from the last cell of the frame. *)
Definition signal_of (cfg : RSIAMMConfig.t) (rsi_value : Q) : Z :=
  if Qltb (inject_Z (RSIAMMConfig.rsi_high cfg)) rsi_value then (-1)%Z
  else if Qltb rsi_value (inject_Z (RSIAMMConfig.rsi_low cfg)) then 1%Z
  else 0%Z.

(** A connector that differs from [c] only in that no call raises. *)
Definition without_failures (c : Connector) : Connector :=
  {| current_timestamp := current_timestamp c;
     active_orders := active_orders c;
     price_by_type := price_by_type c;
     available_balance := available_balance c;
     raises_on_cancel := fun _ => None;
     raises_on_submit := fun _ => None |}.

(** A sequence of ticks of [QuickstartScript2], each with the candle feed
    and the venue as they are at that tick. *)
Fixpoint run_ticks (ticks : list (QuickstartScript2.Candles * Connector))
  (w : world QuickstartScript2.State) : world QuickstartScript2.State :=
  match ticks with
  | [] => w
  | (feed, c) :: rest => run_ticks rest (snd (QuickstartScript2.on_tick feed c w))
  end.

(** The band computation of a tick fails when the frame is empty or its
    last row carries no band cells. *)
Definition band_unavailable (feed : QuickstartScript2.Candles) : Prop :=
  match rev (QuickstartScript2.candles_df feed) with
  | [] => True
  | row :: _ => QuickstartScript2.bands row = None
  end.

(** The venue call that [cancel] makes for one resting order. *)
Definition cancel_event (exchange : string) (o : LimitOrder) : event :=
  Cancel exchange (lo_trading_pair o) (client_order_id o).

(** A loop of venue calls without a handler inside it stops at the first
    call that raises: the calls made, and the exception that ended the
    loop if any. *)
Fixpoint attempted_cancels (c : Connector) (orders : list LimitOrder)
  : list LimitOrder :=
  match orders with
  | [] => []
  | o :: rest =>
      o :: match raises_on_cancel c o with
           | Some _ => []
           | None => attempted_cancels c rest
           end
  end.

Fixpoint cancel_failure (c : Connector) (orders : list LimitOrder)
  : option exn :=
  match orders with
  | [] => None
  | o :: rest =>
      match raises_on_cancel c o with
      | Some e => Some e
      | None => cancel_failure c rest
      end
  end.

Fixpoint attempted_submissions (c : Connector) (exchange : string)
  (proposal : list OrderCandidate) : list event :=
  match proposal with
  | [] => []
  | o :: rest =>
      match order_side o with
      | RANGE => attempted_submissions c exchange rest
      | _ =>
          submission exchange o
          ++ match raises_on_submit c o with
             | Some _ => []
             | None => attempted_submissions c exchange rest
             end
      end
  end.

Fixpoint submit_failure (c : Connector) (proposal : list OrderCandidate)
  : option exn :=
  match proposal with
  | [] => None
  | o :: rest =>
      match order_side o with
      | RANGE => submit_failure c rest
      | _ =>
          match raises_on_submit c o with
          | Some e => Some e
          | None => submit_failure c rest
          end
      end
  end.

(** The fields of [QuickstartScript2] after the band computation of a
    tick: the band cells of the last row when it has them. *)
Definition with_bands (feed : QuickstartScript2.Candles)
  (st : QuickstartScript2.State) : QuickstartScript2.State :=
  match rev (QuickstartScript2.candles_df feed) with
  | [] => st
  | row :: _ =>
      match QuickstartScript2.bands row with
      | Some (upper, lower) =>
          {| QuickstartScript2.create_timestamp :=
               QuickstartScript2.create_timestamp st;
             QuickstartScript2.price_ceiling := upper;
             QuickstartScript2.price_floor := lower |}
      | None => st
      end
  end.

(** The proposals that a refresh cycle of [QuickstartScript2] hands to
    [place_orders]: quoted around the reference price, band-filtered with
    the fields as the band computation left them, budget-adjusted. *)
Definition cycle_proposal (feed : QuickstartScript2.Candles) (c : Connector)
  (st : QuickstartScript2.State) : list OrderCandidate :=
  let order side p :=
    {| trading_pair := QuickstartScript2.script_trading_pair;
       is_maker := true; order_type := LIMIT; order_side := side;
       amount := QuickstartScript2.order_amount; price := p |} in
  let proposal :=
    match price_by_type c with
    | Return ref_price =>
        [order BUY (ref_price * (1 - QuickstartScript2.bid_spread));
         order SELL (ref_price * (1 + QuickstartScript2.ask_spread))]
    | Raise _ => []
    end in
  let st1 := with_bands feed st in
  adjust_candidates_all_or_none c
    (filter (band_keeps (QuickstartScript2.price_ceiling st1)
                        (QuickstartScript2.price_floor st1)) proposal).

(** [m] leaves the fields of the strategy alone, whether it returns or
    raises. *)
Definition steady {S A} (m : M S A) : Prop :=
  forall w, self (snd (m w)) = self w.

(** Run from [w], [m] returns [a], leaves the fields [st], and adds to the
    trace the submissions [sub] and the cancellations [can] (and log
    lines). *)
Definition step_effect {S A} (m : M S A) (w : world S) (a : A) (st : S)
  (sub can : list event) : Prop :=
  exists w',
    m w = (Return a, w')
    /\ self w' = st
    /\ submits (trace w') = submits (trace w) ++ sub
    /\ cancels (trace w') = cancels (trace w) ++ can.

(** [m] only adds to the trace, whether it returns or raises, and every
    event it adds satisfies [P]. *)
Definition appends {S A} (P : event -> Prop) (m : M S A) : Prop :=
  forall w, exists added,
    trace (snd (m w)) = trace w ++ added /\ Forall P added.

(** [m] adds events in two phases: first events that satisfy [P1], then
    events that satisfy [P2]. *)
Definition phased {S A} (P1 P2 : event -> Prop) (m : M S A) : Prop :=
  forall w, exists first_ then_,
    trace (snd (m w)) = trace w ++ first_ ++ then_
    /\ Forall P1 first_ /\ Forall P2 then_.

Definition is_log (e : event) : Prop := exists m, e = Log m.

Definition not_submit (e : event) : Prop := is_submit e = false.

Definition not_cancel (e : event) : Prop := is_cancel e = false.

(** ** Zapaska/your_custom_profit_calculation_script.py *)

Module Zapaska.

(** A trade of the history, a dict: the keys the function reads, [None]
    for a key that the dict does not have. *)
Record Trade : Type := mkTrade {
  type_   : option string;     (* trade['type'] *)
  cost    : option Q;          (* trade['cost'] *)
  revenue : option Q           (* trade['revenue'] *)
}.

(** [d[key]] *)
Definition subscript {A} (v : option A) : outcome A :=
  match v with
  | Some x => Return x
  | None => Raise KeyError
  end.

(** The loop of [calculate_net_profit], from the running [net_profit]. *)
Fixpoint net_profit_loop (trade_history : list Trade)
  (fee_percent net_profit : Q) : outcome Q :=
  match trade_history with
  | [] => Return net_profit
  | trade :: rest =>
      match subscript (type_ trade) with
      | Raise e => Raise e
      | Return ty =>
          if String.eqb ty "buy" then
            match subscript (cost trade) with
            | Raise e => Raise e
            | Return c =>
                let cost_with_fee := c * (1 + fee_percent) in
                net_profit_loop rest fee_percent (net_profit - cost_with_fee)
            end
          else if String.eqb ty "sell" then
            match subscript (revenue trade) with
            | Raise e => Raise e
            | Return r =>
                let revenue_with_fee := r * (1 - fee_percent) in
                net_profit_loop rest fee_percent
                                (net_profit + revenue_with_fee)
            end
          else net_profit_loop rest fee_percent net_profit
      end
  end.

Definition calculate_net_profit (trade_history : list Trade)
  (fee_percent : Q) : outcome Q :=
  net_profit_loop trade_history fee_percent 0.

(** The example run at the end of the script. *)
Definition trade_history : list Trade :=
  [ {| type_ := Some "buy"%string; cost := Some 1000; revenue := None |};
    {| type_ := Some "sell"%string; cost := None; revenue := Some 1015 |} ].

Definition fee_percent : Q := 2 # 1000.

End Zapaska.

(** A trade that [calculate_net_profit] can read: it has a type, a buy
    has a cost, a sell has a revenue. *)
Definition readable (t : Zapaska.Trade) : Prop :=
  match Zapaska.type_ t with
  | None => False
  | Some ty =>
      if String.eqb ty "buy" then Zapaska.cost t <> None
      else if String.eqb ty "sell" then Zapaska.revenue t <> None
      else True
  end.

(** Total cost of the buys and total revenue of the sells. *)
Fixpoint total_cost (h : list Zapaska.Trade) : Q :=
  match h with
  | [] => 0
  | t :: rest =>
      match Zapaska.type_ t, Zapaska.cost t with
      | Some ty, Some c =>
          if String.eqb ty "buy" then c + total_cost rest else total_cost rest
      | _, _ => total_cost rest
      end
  end.

Fixpoint total_revenue (h : list Zapaska.Trade) : Q :=
  match h with
  | [] => 0
  | t :: rest =>
      match Zapaska.type_ t, Zapaska.revenue t with
      | Some ty, Some r =>
          if String.eqb ty "buy" then total_revenue rest
          else if String.eqb ty "sell" then r + total_revenue rest
          else total_revenue rest
      | _, _ => total_revenue rest
      end
  end.

(** ** RSIAMM.format_status *)

Module RSIAMMStatus.


(** [s.split("\n")] *)
Fixpoint split_lines (s : string) : list string :=
  match s with
  | EmptyString => [EmptyString]
  | String ch rest =>
      if Ascii.eqb ch (Ascii.ascii_of_nat 10)
      then EmptyString :: split_lines rest
      else match split_lines rest with
           | line :: lines => String ch line :: lines
           | [] => [String ch EmptyString]
           end
  end.

(** What the strategy base hands to [format_status]: [ready_to_trade],
    the lists [network_warning(...)] and [balance_warning(...)], and the
    texts [get_balance_df().to_string(index=False)] and
    [get_market_status_df_with_depth().to_string(index=False)]. *)
Record Inputs : Type := mkInputs {
  ready_to_trade   : bool;
  network_warning  : list string;
  balance_df       : string;
  market_status_df : string;
  balance_warning  : list string
}.

Definition indent (line : string) : string := ("    " ++ line)%string.

(** The list [lines] when [format_status] joins it. *)
Definition lines (x : Inputs) : list string :=
  let lines0 : list string := [] in
  let warning_lines := [] ++ network_warning x in
  let lines1 :=
    lines0 ++ (["" ; "  Balances:"]%string
               ++ map indent (split_lines (balance_df x))) in
  let lines2 :=
    lines1 ++ (["" ; "  Market Status Data Frame:"]%string
               ++ map indent (split_lines (market_status_df x))) in
  let warning_lines := warning_lines ++ balance_warning x in
  if (0 <? List.length warning_lines)%nat
  then lines2 ++ (["" ; "*** WARNINGS ***"]%string ++ warning_lines)
  else lines2.


End RSIAMMStatus.

(** * Properties *)

(** ** Comparisons and frames *)

Lemma Qltb_lt (a b : Q) : Qltb a b = true <-> a < b.
Proof.
  unfold Qltb. rewrite Qlt_alt. destruct (a ?= b); split; congruence.
Qed.

Lemma Qltb_ge (a b : Q) : Qltb a b = false <-> b <= a.
Proof.
  split; intro H.
  - apply Qnot_lt_le. intro L. apply Qltb_lt in L. congruence.
  - destruct (Qltb a b) eqn:E; trivial.
    apply Qltb_lt in E. exfalso. apply (Qlt_not_le _ _ E H).
Qed.

Lemma iloc_last_snoc (s : list Q) (x : Q) : iloc_last (s ++ [x]) = Return x.
Proof. unfold iloc_last. rewrite rev_app_distr. reflexivity. Qed.

Lemma iat_last_last_snoc (df : list (list Q)) (row : list Q) (x : Q) :
  iat_last_last (df ++ [row ++ [x]]) = Return x.
Proof.
  unfold iat_last_last. rewrite rev_app_distr. simpl. apply iloc_last_snoc.
Qed.

(** ** The band filter *)

Lemma filter_loop_is_filter (st : QuickstartScript2.State)
  (proposal kept : list OrderCandidate) :
  QuickstartScript2.filter_loop st proposal kept
  = kept ++ filter (band_keeps (QuickstartScript2.price_ceiling st)
                               (QuickstartScript2.price_floor st)) proposal.
Proof.
  revert kept. induction proposal as [|o rest IH]; intro kept; simpl.
  - now rewrite app_nil_r.
  - unfold band_keeps at 1.
    destruct (order_side o);
      try destruct (Qltb _ _); rewrite IH; try rewrite <- app_assoc;
      reflexivity.
Qed.

Lemma apply_price_ceiling_floor_filter_run
  (proposal : list OrderCandidate) (w : world QuickstartScript2.State) :
  QuickstartScript2.apply_price_ceiling_floor_filter proposal w
  = (Return (filter (band_keeps (QuickstartScript2.price_ceiling (self w))
                                (QuickstartScript2.price_floor (self w)))
                    proposal), w).
Proof.
  unfold QuickstartScript2.apply_price_ceiling_floor_filter, catch, bind,
    get_self, ret.
  now rewrite filter_loop_is_filter.
Qed.

(** C4.  The band filter returns, in their original order and unchanged,
    exactly the proposals that the band keeps: a SELL is in the output iff
    it is in the input with a price strictly above the floor, a BUY iff it
    is in the input with a price strictly below the ceiling; so a BUY at or
    above the ceiling and a SELL at or below the floor are dropped.  With
    ceiling 105 and floor 95, [buy@106; sell@104] is filtered to
    [sell@104]. *)
Theorem band_filter_keeps_inside_band :
  (forall (proposal : list OrderCandidate) (w : world QuickstartScript2.State),
     let C := QuickstartScript2.price_ceiling (self w) in
     let F := QuickstartScript2.price_floor (self w) in
     exists out,
       QuickstartScript2.apply_price_ceiling_floor_filter proposal w
       = (Return out, w)
       /\ out = filter (band_keeps C F) proposal
       /\ (forall o, order_side o = SELL ->
             (In o out <-> In o proposal /\ F < price o))
       /\ (forall o, order_side o = BUY ->
             (In o out <-> In o proposal /\ price o < C))
       /\ (forall o, order_side o = BUY -> C <= price o -> ~ In o out)
       /\ (forall o, order_side o = SELL -> price o <= F -> ~ In o out))
  /\ (let order side p :=
        {| trading_pair := "POPCAT-USDT"; is_maker := true;
           order_type := LIMIT; order_side := side; amount := 40;
           price := p |} in
      forall ts trace0,
        QuickstartScript2.apply_price_ceiling_floor_filter
          [order BUY 106; order SELL 104]
          (mkWorld {| QuickstartScript2.create_timestamp := ts;
                      QuickstartScript2.price_ceiling := 105;
                      QuickstartScript2.price_floor := 95 |} trace0)
        = (Return [order SELL 104],
           mkWorld {| QuickstartScript2.create_timestamp := ts;
                      QuickstartScript2.price_ceiling := 105;
                      QuickstartScript2.price_floor := 95 |} trace0)).
Proof.
  split.
  - intros proposal w C F.
    exists (filter (band_keeps C F) proposal).
    split; [apply apply_price_ceiling_floor_filter_run|].
    split; [reflexivity|].
    assert (HS : forall o, order_side o = SELL ->
               (In o (filter (band_keeps C F) proposal)
                <-> In o proposal /\ F < price o)).
    { intros o Ho. rewrite filter_In. unfold band_keeps. rewrite Ho.
      now rewrite Qltb_lt. }
    assert (HB : forall o, order_side o = BUY ->
               (In o (filter (band_keeps C F) proposal)
                <-> In o proposal /\ price o < C)).
    { intros o Ho. rewrite filter_In. unfold band_keeps. rewrite Ho.
      now rewrite Qltb_lt. }
    repeat split; try (apply HS; assumption); try (apply HB; assumption).
    + intros o Ho Hge Hin. apply HB in Hin; [|assumption].
      destruct Hin as [_ Hlt]. apply (Qlt_not_le _ _ Hlt Hge).
    + intros o Ho Hle Hin. apply HS in Hin; [|assumption].
      destruct Hin as [_ Hlt]. apply (Qlt_not_le _ _ Hlt Hle).
  - intros order ts trace0. rewrite apply_price_ceiling_floor_filter_run.
    reflexivity.
Qed.

Lemma band_filter_witness :
  exists out,
    QuickstartScript2.apply_price_ceiling_floor_filter
      [ {| trading_pair := "POPCAT-USDT"; is_maker := true;
           order_type := LIMIT; order_side := BUY; amount := 40;
           price := 98 |} ]
      (mkWorld {| QuickstartScript2.create_timestamp := 0;
                  QuickstartScript2.price_ceiling := 105;
                  QuickstartScript2.price_floor := 95 |} [])
    = (Return out,
       mkWorld {| QuickstartScript2.create_timestamp := 0;
                  QuickstartScript2.price_ceiling := 105;
                  QuickstartScript2.price_floor := 95 |} [])
    /\ List.length out = 1%nat.
Proof.
  destruct (proj1 band_filter_keeps_inside_band
              [ {| trading_pair := "POPCAT-USDT"; is_maker := true;
                   order_type := LIMIT; order_side := BUY; amount := 40;
                   price := 98 |} ]
              (mkWorld {| QuickstartScript2.create_timestamp := 0;
                          QuickstartScript2.price_ceiling := 105;
                          QuickstartScript2.price_floor := 95 |} []))
    as (out & Hrun & Hout & _).
  exists out. split; [exact Hrun|]. rewrite Hout. reflexivity.
Defined.

(** ** The budget adjuster *)

(** C8.  In all-or-none mode the budget adjuster returns the empty list
    when the total requested notional exceeds the available balance, and
    its input otherwise; it never raises and leaves the world as it was. *)
Theorem budget_all_or_none_drops_or_keeps
  (c : Connector) (proposal : list OrderCandidate)
  (w : world QuickstartScript2.State) :
  (available_balance c < total_notional proposal ->
     QuickstartScript2.adjust_proposal_to_budget c proposal w
     = (Return [], w))
  /\ (total_notional proposal <= available_balance c ->
     QuickstartScript2.adjust_proposal_to_budget c proposal w
     = (Return proposal, w)).
Proof.
  unfold QuickstartScript2.adjust_proposal_to_budget, catch, ret,
    adjust_candidates_all_or_none.
  split; intro H.
  - apply Qltb_lt in H. now rewrite H.
  - apply Qltb_ge in H. now rewrite H.
Qed.

Lemma budget_all_or_none_witness :
  let c := {| current_timestamp := 0; active_orders := [];
              price_by_type := Return 1; available_balance := 50;
              raises_on_cancel := fun _ => None;
              raises_on_submit := fun _ => None |} in
  let order side p :=
    {| trading_pair := "POPCAT-USDT"; is_maker := true; order_type := LIMIT;
       order_side := side; amount := 40; price := p |} in
  let w := mkWorld QuickstartScript2.init [] in
  QuickstartScript2.adjust_proposal_to_budget c
    [order BUY (98 # 100); order SELL (102 # 100)] w = (Return [], w)
  /\ QuickstartScript2.adjust_proposal_to_budget c [order BUY (98 # 100)] w
     = (Return [order BUY (98 # 100)], w).
Proof.
  intros c order w. split.
  - apply (proj1 (budget_all_or_none_drops_or_keeps c
                    [order BUY (98 # 100); order SELL (102 # 100)] w)).
    vm_compute. reflexivity.
  - apply (proj2 (budget_all_or_none_drops_or_keeps c
                    [order BUY (98 # 100)] w)).
    vm_compute. discriminate.
Defined.

(** ** The fill notification *)

(** C9.  The fill notification only logs and notifies: in both scripts the
    fields of the strategy ([create_timestamp], [price_ceiling] and
    [price_floor]; [create_timestamp] and [last_mid_price]) are after
    [did_fill_order] what they were before, for every fill event; the call
    returns, and the trace grows by the log line and the notification. *)
Theorem did_fill_order_preserves_state :
  (forall (ev : OrderFilledEvent) (w : world QuickstartScript2.State),
     let w' := snd (QuickstartScript2.did_fill_order ev w) in
     self w' = self w
     /\ QuickstartScript2.create_timestamp (self w')
        = QuickstartScript2.create_timestamp (self w)
     /\ QuickstartScript2.price_ceiling (self w')
        = QuickstartScript2.price_ceiling (self w)
     /\ QuickstartScript2.price_floor (self w')
        = QuickstartScript2.price_floor (self w)
     /\ fst (QuickstartScript2.did_fill_order ev w) = Return tt
     /\ trace w' = trace w ++ [Log (MsgFill ev QuickstartScript2.exchange);
                               Notify (MsgFill ev QuickstartScript2.exchange)])
  /\ (forall (cfg : RSIAMMConfig.t) (ev : OrderFilledEvent)
             (w : world RSIAMM.State),
     let w' := snd (RSIAMM.did_fill_order cfg ev w) in
     self w' = self w
     /\ fst (RSIAMM.did_fill_order cfg ev w) = Return tt
     /\ trace w' = trace w ++ [Log (MsgFill ev (RSIAMMConfig.exchange cfg));
                               Notify (MsgFill ev (RSIAMMConfig.exchange cfg))]).
Proof.
  split.
  - intros ev [st tr]. cbn. rewrite <- app_assoc. repeat split; reflexivity.
  - intros cfg ev [st tr]. cbn. rewrite <- app_assoc.
    repeat split; reflexivity.
Qed.

(** ** The quote generator of RSIAMM *)

Lemma get_natr_run (md : RSIAMM.MarketData) (series : list Q) (n : Q)
  (w : world RSIAMM.State) :
  RSIAMM.natr md = Some series -> iloc_last series = Return n ->
  RSIAMM.get_natr md w = (Return (n / 100), w).
Proof.
  intros Hs Hn. unfold RSIAMM.get_natr. rewrite Hs.
  unfold bind, lift, ret. now rewrite Hn.
Qed.


Lemma get_rsi_signal_run (cfg : RSIAMMConfig.t) (md : RSIAMM.MarketData)
  (r : Q) (w : world RSIAMM.State) :
  iat_last_last (RSIAMM.processed_df md) = Return r ->
  exists logs,
    RSIAMM.get_rsi_signal cfg md w
    = (Return (signal_of cfg r),
       mkWorld (self w) (trace w ++ Log (MsgRsiValue r) :: logs))
    /\ submits logs = [] /\ cancels logs = [].
Proof.
  intro Hr.
  unfold RSIAMM.get_rsi_signal, RSIAMM.get_processed_df, signal_of, bind,
    lift, ret, log, emit.
  rewrite Hr. cbn.
  destruct (Qltb (inject_Z (RSIAMMConfig.rsi_high cfg)) r).
  - exists [Log (MsgRsiOver (RSIAMMConfig.rsi_high cfg))]. cbn.
    now rewrite <- app_assoc.
  - destruct (Qltb r (inject_Z (RSIAMMConfig.rsi_low cfg))).
    + exists [Log (MsgRsiUnder (RSIAMMConfig.rsi_low cfg))]. cbn.
      now rewrite <- app_assoc.
    + exists []. repeat split; reflexivity.
Qed.



Lemma signal_of_cases (cfg : RSIAMMConfig.t) (r : Q) :
  let high := inject_Z (RSIAMMConfig.rsi_high cfg) in
  let low := inject_Z (RSIAMMConfig.rsi_low cfg) in
  (high < r /\ signal_of cfg r = (-1)%Z)
  \/ (~ high < r /\ r < low /\ signal_of cfg r = 1%Z)
  \/ (~ high < r /\ ~ r < low /\ signal_of cfg r = 0%Z).
Proof.
  intros high low. unfold signal_of. fold high low.
  destruct (Qltb high r) eqn:Eh.
  - left. split; [now apply Qltb_lt|reflexivity].
  - right. assert (Hh : ~ high < r).
    { intro L. apply Qltb_lt in L. congruence. }
    destruct (Qltb r low) eqn:El.
    + left. repeat split; trivial. now apply Qltb_lt.
    + right. repeat split; trivial. intro L. apply Qltb_lt in L. congruence.
Qed.









(** ** Spread around the adjusted mid price *)









(** ** Running the monad *)

Lemma world_eta {S} (w : world S) : mkWorld (self w) (trace w) = w.
Proof. now destruct w. Qed.

Lemma submits_app (t u : list event) : submits (t ++ u) = submits t ++ submits u.
Proof. apply filter_app. Qed.

Lemma cancels_app (t u : list event) : cancels (t ++ u) = cancels t ++ cancels u.
Proof. apply filter_app. Qed.

Lemma submits_cancel_events (exchange : string) (orders : list LimitOrder) :
  submits (map (cancel_event exchange) orders) = [].
Proof. induction orders; simpl; auto. Qed.

Lemma cancels_cancel_events (exchange : string) (orders : list LimitOrder) :
  cancels (map (cancel_event exchange) orders)
  = map (cancel_event exchange) orders.
Proof. induction orders; simpl; [|rewrite IHorders]; auto. Qed.

Lemma steady_ret {S A} (a : A) : steady (@ret S A a).
Proof. intro w. reflexivity. Qed.

Lemma steady_raise {S A} (e : exn) : steady (@raise S A e).
Proof. intro w. reflexivity. Qed.

Lemma steady_lift {S A} (o : outcome A) : steady (@lift S A o).
Proof. intro w. reflexivity. Qed.

Lemma steady_emit {S} (e : event) : steady (@emit S e).
Proof. intro w. reflexivity. Qed.

Lemma steady_get_self {S} : steady (@get_self S).
Proof. intro w. reflexivity. Qed.

Lemma steady_fail_with {S} (r : option exn) : steady (@fail_with S r).
Proof. intro w. destruct r; reflexivity. Qed.

Lemma steady_bind {S A B} (m : M S A) (k : A -> M S B) :
  steady m -> (forall a, steady (k a)) -> steady (bind m k).
Proof.
  intros Hm Hk w. unfold bind. specialize (Hm w).
  destruct (m w) as [[a|e] w1]; simpl in *.
  - now rewrite Hk.
  - assumption.
Qed.

Lemma steady_catch {S A} (m : M S A) (h : exn -> M S A) :
  steady m -> (forall e, steady (h e)) -> steady (catch m h).
Proof.
  intros Hm Hh w. unfold catch. specialize (Hm w).
  destruct (m w) as [[a|e] w1]; simpl in *.
  - assumption.
  - now rewrite Hh.
Qed.

Lemma steady_for_each {S A} (xs : list A) (body : A -> M S unit) :
  (forall x, steady (body x)) -> steady (for_each xs body).
Proof.
  intro Hb. induction xs as [|x rest IH]; simpl.
  - apply steady_ret.
  - apply steady_bind; auto.
Qed.

Ltac steady :=
  repeat first
    [ progress intros
    | apply steady_bind | apply steady_catch | apply steady_for_each
    | apply steady_ret | apply steady_raise | apply steady_lift
    | apply steady_emit | apply steady_get_self | apply steady_fail_with
    | match goal with
      | |- steady (match ?x with _ => _ end) => destruct x
      | |- steady (if ?x then _ else _) => destruct x
      end ].

(** A loop of cancellations without a handler inside: the calls made are
    those up to the first that raises. *)
Lemma cancel_loop_run {S} (c : Connector) (exchange : string)
  (orders : list LimitOrder) (w : world S) :
  for_each orders (fun order => cancel c exchange order) w
  = (match cancel_failure c orders with
     | Some e => Raise e
     | None => Return tt
     end,
     mkWorld (self w)
             (trace w ++ map (cancel_event exchange) (attempted_cancels c orders))).
Proof.
  revert w. induction orders as [|o rest IH]; intro w; simpl.
  - unfold ret. now rewrite app_nil_r, world_eta.
  - unfold bind at 1. unfold cancel, bind, emit, fail_with.
    destruct (raises_on_cancel c o) as [e|]; cbn.
    + reflexivity.
    + rewrite IH. cbn. now rewrite <- app_assoc.
Qed.


(** ** The refresh tick of RSIAMM *)

Lemma rsiamm_place_orders_run (cfg : RSIAMMConfig.t) (c : Connector)
  (proposal : list OrderCandidate) (w : world RSIAMM.State) :
  RSIAMM.place_orders cfg c proposal w
  = (match submit_failure c proposal with
     | Some e => Raise e
     | None => Return tt
     end,
     mkWorld (self w)
             (trace w ++ attempted_submissions c (RSIAMMConfig.exchange cfg)
                                               proposal)).
Proof.
  unfold RSIAMM.place_orders.
  revert w. induction proposal as [|o rest IH]; intro w; simpl.
  - unfold ret. now rewrite app_nil_r, world_eta.
  - unfold bind at 1. unfold RSIAMM.place_order, submission.
    destruct (order_side o); unfold buy, sell, bind, emit, fail_with, ret.
    + destruct (raises_on_submit c o) as [e|]; cbn.
      * reflexivity.
      * rewrite IH. cbn. now rewrite <- app_assoc.
    + destruct (raises_on_submit c o) as [e|]; cbn.
      * reflexivity.
      * rewrite IH. cbn. now rewrite <- app_assoc.
    + apply IH.
Qed.

Lemma steady_rsiamm_create_proposal (cfg : RSIAMMConfig.t)
  (md : RSIAMM.MarketData) (mid : Q) :
  steady (RSIAMM.create_proposal cfg md mid).
Proof.
  unfold RSIAMM.create_proposal, RSIAMM.get_natr, RSIAMM.get_rsi_signal,
    RSIAMM.get_processed_df, log.
  steady.
Qed.

Lemma rsiamm_tick_not_ready (cfg : RSIAMMConfig.t) (md : RSIAMM.MarketData)
  (c : Connector) (w : world RSIAMM.State) :
  RSIAMM.ready md = false -> RSIAMM.on_tick cfg md c w = (Return tt, w).
Proof. intro H. unfold RSIAMM.on_tick. now rewrite H. Qed.

Lemma rsiamm_tick_idle (cfg : RSIAMMConfig.t) (md : RSIAMM.MarketData)
  (c : Connector) (w : world RSIAMM.State) :
  current_timestamp c < RSIAMM.create_timestamp (self w) ->
  RSIAMM.on_tick cfg md c w = (Return tt, w).
Proof.
  intro H. unfold RSIAMM.on_tick.
  destruct (negb (RSIAMM.ready md)); [reflexivity|].
  unfold bind, get_self, when.
  destruct (Qle_bool _ _) eqn:E; [|reflexivity].
  apply Qle_bool_iff in E. exfalso. apply (Qlt_not_le _ _ H E).
Qed.

(** The body of a refresh cycle of [RSIAMM], as [on_tick] runs it once the
    feed is ready and the refresh time has come. *)
Lemma rsiamm_tick_due (cfg : RSIAMMConfig.t) (md : RSIAMM.MarketData)
  (c : Connector) (w : world RSIAMM.State) :
  RSIAMM.ready md = true ->
  RSIAMM.create_timestamp (self w) <= current_timestamp c ->
  RSIAMM.on_tick cfg md c w
  = (RSIAMM.cancel_all_orders cfg c ;;
     mid_price <- lift (price_by_type c) ;;
     log (MsgMidPrice mid_price) ;;
     proposal <- RSIAMM.create_proposal cfg md mid_price ;;
     RSIAMM.place_orders cfg c proposal ;;
     st' <- get_self ;;
     set_self
       {| RSIAMM.create_timestamp :=
            inject_Z (RSIAMMConfig.order_refresh_time cfg)
            + current_timestamp c;
          RSIAMM.last_mid_price := RSIAMM.last_mid_price st' |}) w.
Proof.
  intros Hr Hd. unfold RSIAMM.on_tick. rewrite Hr. cbn [negb].
  unfold bind at 1. unfold get_self at 1. unfold when.
  apply Qle_bool_iff in Hd. now rewrite Hd.
Qed.

(** A cycle of [RSIAMM] either returns with the refresh time moved to
    [order_refresh_time + now], or raises with the fields untouched. *)
Lemma rsiamm_cycle_outcome (cfg : RSIAMMConfig.t) (md : RSIAMM.MarketData)
  (c : Connector) (w : world RSIAMM.State) :
  RSIAMM.ready md = true ->
  RSIAMM.create_timestamp (self w) <= current_timestamp c ->
  match RSIAMM.on_tick cfg md c w with
  | (Return _, w') =>
      RSIAMM.create_timestamp (self w')
      = inject_Z (RSIAMMConfig.order_refresh_time cfg) + current_timestamp c
  | (Raise _, w') => self w' = self w
  end.
Proof.
  intros Hr Hd. rewrite (rsiamm_tick_due cfg md c w Hr Hd).
  unfold RSIAMM.cancel_all_orders.
  unfold bind at 1. rewrite cancel_loop_run.
  destruct (cancel_failure c (active_orders c)) as [e|]; [reflexivity|].
  unfold bind at 1. unfold lift at 1.
  destruct (price_by_type c) as [mid|e]; [|reflexivity].
  unfold bind at 1. unfold log at 1, emit at 1. cbn [self trace].
  unfold bind at 1.
  match goal with
  | |- context [RSIAMM.create_proposal cfg md mid ?w1] =>
      pose proof (steady_rsiamm_create_proposal cfg md mid w1) as Hc;
      destruct (RSIAMM.create_proposal cfg md mid w1) as [[proposal|e] w2]
  end; cbn [snd self] in Hc; [|exact Hc].
  unfold bind at 1. rewrite rsiamm_place_orders_run.
  destruct (submit_failure c proposal) as [e|]; [exact Hc|].
  reflexivity.
Qed.





(** ** The steps of a cycle of QuickstartScript2 *)

Lemma step_bind {S A B} (m : M S A) (k : A -> M S B) (w : world S)
  (a : A) (st1 : S) (s1 c1 : list event)
  (b : B) (st2 : S) (s2 c2 : list event) :
  step_effect m w a st1 s1 c1 ->
  (forall w1, self w1 = st1 -> step_effect (k a) w1 b st2 s2 c2) ->
  step_effect (bind m k) w b st2 (s1 ++ s2) (c1 ++ c2).
Proof.
  intros (w1 & Hm & Hst & Hs & Hc) Hk.
  destruct (Hk w1 Hst) as (w2 & Hk2 & Hst2 & Hs2 & Hc2).
  exists w2. unfold bind. rewrite Hm. split; [exact Hk2|].
  split; [exact Hst2|].
  rewrite Hs2, Hc2, Hs, Hc, <- !app_assoc. split; reflexivity.
Qed.

Lemma step_catch {S A} (m : M S A) (h : exn -> M S A) (w : world S)
  (a : A) (st : S) (s c : list event) :
  step_effect m w a st s c -> step_effect (catch m h) w a st s c.
Proof.
  intros (w1 & Hm & H). exists w1. unfold catch. now rewrite Hm.
Qed.

Lemma step_ret {S A} (a : A) (w : world S) :
  step_effect (ret a) w a (self w) [] [].
Proof.
  exists w. unfold ret. now rewrite !app_nil_r.
Qed.

Lemma step_log {S} (m : message) (w : world S) :
  step_effect (log m) w tt (self w) [] [].
Proof.
  eexists. unfold log, emit. split; [reflexivity|]. cbn.
  rewrite submits_app, cancels_app. auto.
Qed.

Lemma step_get_self {S} (w : world S) :
  step_effect get_self w (self w) (self w) [] [].
Proof.
  exists w. unfold get_self. now rewrite !app_nil_r.
Qed.

Lemma step_set_self {S} (st : S) (w : world S) :
  step_effect (set_self st) w tt st [] [].
Proof.
  eexists. unfold set_self. split; [reflexivity|]. cbn.
  now rewrite !app_nil_r.
Qed.

Lemma step_weaken {S A} (m : M S A) (w : world S) (a : A) (st st' : S)
  (s s' c c' : list event) :
  step_effect m w a st s c -> st = st' -> s = s' -> c = c' ->
  step_effect m w a st' s' c'.
Proof. intros H -> -> ->. exact H. Qed.

Lemma quickstart_cancel_all_orders_step (c : Connector)
  (w : world QuickstartScript2.State) :
  step_effect (QuickstartScript2.cancel_all_orders c) w tt (self w) []
    (map (cancel_event QuickstartScript2.exchange)
         (attempted_cancels c (active_orders c))).
Proof.
  unfold QuickstartScript2.cancel_all_orders, catch, step_effect.
  rewrite cancel_loop_run.
  destruct (cancel_failure c (active_orders c)) as [e|].
  - eexists. unfold log, emit. split; [reflexivity|]. cbn.
    rewrite !submits_app, !cancels_app, submits_cancel_events,
      cancels_cancel_events.
    cbn. now rewrite !app_nil_r.
  - eexists. split; [reflexivity|]. cbn.
    rewrite !submits_app, !cancels_app, submits_cancel_events,
      cancels_cancel_events.
    now rewrite !app_nil_r.
Qed.

Lemma quickstart_calculate_step (feed : QuickstartScript2.Candles)
  (w : world QuickstartScript2.State) :
  step_effect (QuickstartScript2.calculate_price_ceiling_floor feed) w tt
    (with_bands feed (self w)) [] [].
Proof.
  unfold QuickstartScript2.calculate_price_ceiling_floor, with_bands,
    QuickstartScript2.iloc_last_row, catch, bind, lift.
  destruct (rev (QuickstartScript2.candles_df feed)) as [|row rest].
  - apply step_log.
  - unfold QuickstartScript2.BBU, QuickstartScript2.BBL.
    destruct (QuickstartScript2.bands row) as [[upper lower]|].
    + eexists. cbn. split; [reflexivity|]. now rewrite !app_nil_r.
    + apply step_log.
Qed.

Lemma quickstart_create_proposal_step (c : Connector)
  (w : world QuickstartScript2.State) :
  let order side p :=
    {| trading_pair := QuickstartScript2.script_trading_pair;
       is_maker := true; order_type := LIMIT; order_side := side;
       amount := QuickstartScript2.order_amount; price := p |} in
  step_effect (QuickstartScript2.create_proposal c) w
    (match price_by_type c with
     | Return ref_price =>
         [order BUY (ref_price * (1 - QuickstartScript2.bid_spread));
          order SELL (ref_price * (1 + QuickstartScript2.ask_spread))]
     | Raise _ => []
     end)
    (self w) [] [].
Proof.
  intro order. unfold QuickstartScript2.create_proposal, catch, bind, lift.
  destruct (price_by_type c) as [ref_price|e].
  - apply step_ret.
  - change (step_effect
              (log (MsgError "create_proposal" e) ;;
               ret (@nil OrderCandidate))
              w [] (self w) ([] ++ []) ([] ++ [])).
    eapply step_bind; [apply step_log|].
    intros w1 Hw1. rewrite <- Hw1. apply step_ret.
Qed.

Lemma quickstart_place_orders_step (c : Connector)
  (proposal : list OrderCandidate) (w : world QuickstartScript2.State) :
  step_effect (QuickstartScript2.place_orders c proposal) w tt (self w)
    (flat_map (submission QuickstartScript2.exchange) proposal) [].
Proof.
  unfold QuickstartScript2.place_orders. apply step_catch.
  revert w. induction proposal as [|o rest IH]; intro w; simpl.
  - apply step_ret.
  - change (@nil event) with (@nil event ++ []).
    eapply step_bind; [|intros w1 Hw1; rewrite <- Hw1; apply IH].
    unfold QuickstartScript2.place_order, submission, catch, buy, sell,
      bind, emit, fail_with, log.
    destruct (order_side o); try apply step_ret;
      destruct (raises_on_submit c o) as [e|];
      (eexists; split; [reflexivity|]; cbn [self trace];
       split; [reflexivity|];
       rewrite ?submits_app, ?cancels_app; cbn;
       rewrite ?app_nil_r; split; reflexivity).
Qed.

Lemma quickstart_filter_step (proposal : list OrderCandidate)
  (w : world QuickstartScript2.State) :
  step_effect (QuickstartScript2.apply_price_ceiling_floor_filter proposal) w
    (filter (band_keeps (QuickstartScript2.price_ceiling (self w))
                        (QuickstartScript2.price_floor (self w))) proposal)
    (self w) [] [].
Proof.
  exists w. rewrite apply_price_ceiling_floor_filter_run.
  now rewrite !app_nil_r.
Qed.

Lemma quickstart_adjust_step (c : Connector) (proposal : list OrderCandidate)
  (w : world QuickstartScript2.State) :
  step_effect (QuickstartScript2.adjust_proposal_to_budget c proposal) w
    (adjust_candidates_all_or_none c proposal) (self w) [] [].
Proof.
  exists w. unfold QuickstartScript2.adjust_proposal_to_budget, catch, ret.
  now rewrite !app_nil_r.
Qed.

(** ** The refresh tick of QuickstartScript2 *)

Ltac next_step lemma :=
  eapply step_bind;
  [ eapply step_weaken; [apply lemma | cbn [self]; reflexivity ..]
  | let w1 := fresh "w" in
    let H := fresh "H" in
    let st := fresh "st" in
    let tr := fresh "tr" in
    intros w1 H; destruct w1 as [st tr]; cbn [self] in H; subst st ].

Lemma quickstart_tick_idle (feed : QuickstartScript2.Candles) (c : Connector)
  (w : world QuickstartScript2.State) :
  current_timestamp c < QuickstartScript2.create_timestamp (self w) ->
  QuickstartScript2.on_tick feed c w = (Return tt, w).
Proof.
  intro H. unfold QuickstartScript2.on_tick, catch, bind, get_self, when.
  destruct (Qle_bool _ _) eqn:E; [|reflexivity].
  apply Qle_bool_iff in E. exfalso. apply (Qlt_not_le _ _ H E).
Qed.

Lemma quickstart_tick_not_ready (feed : QuickstartScript2.Candles)
  (c : Connector) (w : world QuickstartScript2.State) :
  QuickstartScript2.is_ready feed = false ->
  fst (QuickstartScript2.on_tick feed c w) = Return tt
  /\ self (snd (QuickstartScript2.on_tick feed c w)) = self w
  /\ submits (trace (snd (QuickstartScript2.on_tick feed c w)))
     = submits (trace w)
  /\ cancels (trace (snd (QuickstartScript2.on_tick feed c w)))
     = cancels (trace w).
Proof.
  intro H. unfold QuickstartScript2.on_tick, catch, bind, get_self, when.
  rewrite H. destruct (Qle_bool _ _); cbn.
  - rewrite submits_app, cancels_app. cbn. now rewrite !app_nil_r.
  - auto.
Qed.

Lemma quickstart_tick_cycle (feed : QuickstartScript2.Candles)
  (c : Connector) (w : world QuickstartScript2.State) :
  QuickstartScript2.is_ready feed = true ->
  QuickstartScript2.create_timestamp (self w) <= current_timestamp c ->
  step_effect (QuickstartScript2.on_tick feed c) w tt
    {| QuickstartScript2.create_timestamp :=
         inject_Z QuickstartScript2.order_refresh_time + current_timestamp c;
       QuickstartScript2.price_ceiling :=
         QuickstartScript2.price_ceiling (with_bands feed (self w));
       QuickstartScript2.price_floor :=
         QuickstartScript2.price_floor (with_bands feed (self w)) |}
    (flat_map (submission QuickstartScript2.exchange)
              (cycle_proposal feed c (self w)))
    (map (cancel_event QuickstartScript2.exchange)
         (attempted_cancels c (active_orders c))).
Proof.
  intros Hr Hd. unfold QuickstartScript2.on_tick. apply step_catch.
  eapply step_weaken.
  - next_step (@step_get_self QuickstartScript2.State).
    unfold when. apply Qle_bool_iff in Hd. rewrite Hd, Hr.
    next_step quickstart_cancel_all_orders_step.
    next_step quickstart_calculate_step.
    next_step quickstart_create_proposal_step.
    next_step quickstart_filter_step.
    next_step quickstart_adjust_step.
    next_step quickstart_place_orders_step.
    next_step (@step_get_self QuickstartScript2.State).
    next_step (@step_set_self QuickstartScript2.State).
    eapply step_weaken; [apply step_log | cbn [self]; reflexivity ..].
  - reflexivity.
  - cbn [app]. rewrite !app_nil_r. reflexivity.
  - cbn [app]. rewrite !app_nil_r. reflexivity.
Qed.

(** ** The refresh clock *)




(** ** Indicators that are not available *)




(** ** Failures of single venue calls *)





(** ** The band before its first computation *)

Lemma with_bands_unavailable (feed : QuickstartScript2.Candles)
  (st : QuickstartScript2.State) :
  band_unavailable feed -> with_bands feed st = st.
Proof.
  unfold band_unavailable, with_bands.
  destruct (rev (QuickstartScript2.candles_df feed)) as [|row rest];
    [reflexivity|].
  now intros ->.
Qed.

Lemma tick_keeps_band_fields (feed : QuickstartScript2.Candles)
  (c : Connector) (w : world QuickstartScript2.State) :
  band_unavailable feed ->
  QuickstartScript2.price_ceiling
    (self (snd (QuickstartScript2.on_tick feed c w)))
  = QuickstartScript2.price_ceiling (self w)
  /\ QuickstartScript2.price_floor
       (self (snd (QuickstartScript2.on_tick feed c w)))
     = QuickstartScript2.price_floor (self w).
Proof.
  intro Hb.
  destruct (Qlt_le_dec (current_timestamp c)
                       (QuickstartScript2.create_timestamp (self w)))
    as [Hidle|Hdue].
  - rewrite (quickstart_tick_idle feed c w Hidle). split; reflexivity.
  - destruct (QuickstartScript2.is_ready feed) eqn:Hr.
    + destruct (quickstart_tick_cycle feed c w Hr Hdue) as (w' & Hrun & Hs & _).
      rewrite Hrun. cbn [snd]. rewrite Hs. cbn.
      rewrite (with_bands_unavailable feed (self w) Hb). split; reflexivity.
    + destruct (quickstart_tick_not_ready feed c w Hr) as (_ & Hs & _).
      rewrite Hs. split; reflexivity.
Qed.

Lemma run_ticks_keeps_band_fields
  (ticks : list (QuickstartScript2.Candles * Connector))
  (w : world QuickstartScript2.State) :
  Forall (fun t => band_unavailable (fst t)) ticks ->
  QuickstartScript2.price_ceiling (self (run_ticks ticks w))
  = QuickstartScript2.price_ceiling (self w)
  /\ QuickstartScript2.price_floor (self (run_ticks ticks w))
     = QuickstartScript2.price_floor (self w).
Proof.
  intro H. revert w. induction H as [|[feed c] rest Hb _ IH]; intro w; simpl.
  - split; reflexivity.
  - destruct (IH (snd (QuickstartScript2.on_tick feed c w))) as [Hc Hf].
    destruct (tick_keeps_band_fields feed c w Hb) as [Hc' Hf'].
    rewrite Hc, Hf, Hc', Hf'. split; reflexivity.
Qed.

Lemma zero_band_keeps_sells (proposal : list OrderCandidate) :
  (forall o, In o proposal -> 0 < price o) ->
  filter (band_keeps 0 0) proposal
  = filter (fun o => match order_side o with SELL => true | _ => false end)
           proposal.
Proof.
  intro Hpos. apply filter_ext_in. intros o Ho. specialize (Hpos o Ho).
  unfold band_keeps. destruct (order_side o); trivial.
  - apply Qltb_ge. now apply Qlt_le_weak.
  - now apply Qltb_lt.
Qed.

(** C10.  [price_ceiling] and [price_floor] start at 0, and a band
    computation that fails (empty frame, or no band cells in the last row)
    is caught and leaves every field as it was.  So after any ticks in
    which the band computation failed both are still 0: the band filter
    then keeps, of proposals with positive prices, exactly the SELLs, and a
    cycle run then submits no BUY with a positive price. *)
Theorem band_starts_at_zero :
  QuickstartScript2.price_ceiling QuickstartScript2.init = 0
  /\ QuickstartScript2.price_floor QuickstartScript2.init = 0
  /\ (forall (feed : QuickstartScript2.Candles)
             (w : world QuickstartScript2.State),
        band_unavailable feed ->
        exists w',
          QuickstartScript2.calculate_price_ceiling_floor feed w
          = (Return tt, w')
          /\ self w' = self w)
  /\ (forall (ticks : list (QuickstartScript2.Candles * Connector))
             (trace0 : list event),
        Forall (fun t => band_unavailable (fst t)) ticks ->
        let w := run_ticks ticks (mkWorld QuickstartScript2.init trace0) in
        QuickstartScript2.price_ceiling (self w) = 0
        /\ QuickstartScript2.price_floor (self w) = 0
        /\ (forall proposal,
              (forall o, In o proposal -> 0 < price o) ->
              QuickstartScript2.apply_price_ceiling_floor_filter proposal w
              = (Return
                   (filter (fun o => match order_side o with
                                     | SELL => true
                                     | _ => false
                                     end) proposal), w))
        /\ (forall (feed : QuickstartScript2.Candles) (c : Connector),
              band_unavailable feed ->
              QuickstartScript2.is_ready feed = true ->
              QuickstartScript2.create_timestamp (self w)
              <= current_timestamp c ->
              exists w',
                QuickstartScript2.on_tick feed c w = (Return tt, w')
                /\ submits (trace w')
                   = submits (trace w)
                     ++ flat_map (submission QuickstartScript2.exchange)
                          (cycle_proposal feed c (self w))
                /\ (forall o, In o (cycle_proposal feed c (self w)) ->
                              0 < price o -> order_side o = SELL))).
Proof.
  split; [reflexivity|]. split; [reflexivity|]. split.
  - intros feed w Hb.
    destruct (quickstart_calculate_step feed w) as (w' & Hrun & Hs & _).
    exists w'. split; [exact Hrun|].
    now rewrite Hs, with_bands_unavailable.
  - intros ticks trace0 Hall w.
    destruct (run_ticks_keeps_band_fields ticks
                (mkWorld QuickstartScript2.init trace0) Hall) as [Hc Hf].
    fold w in Hc, Hf. cbn in Hc, Hf.
    split; [exact Hc|]. split; [exact Hf|]. split.
    + intros proposal Hpos. rewrite apply_price_ceiling_floor_filter_run.
      now rewrite Hc, Hf, zero_band_keeps_sells.
    + intros feed c Hb Hr Hd.
      destruct (quickstart_tick_cycle feed c w Hr Hd)
        as (w' & Hrun & _ & Hsub & _).
      exists w'. split; [exact Hrun|]. split; [exact Hsub|].
      intros o Ho Hpos. unfold cycle_proposal in Ho.
      rewrite (with_bands_unavailable feed (self w) Hb), Hc, Hf in Ho.
      unfold adjust_candidates_all_or_none in Ho.
      destruct (Qltb _ _) in Ho; [contradiction|].
      apply filter_In in Ho. destruct Ho as [Ho Hk].
      destruct (price_by_type c) as [ref_price|e]; [|contradiction].
      unfold band_keeps in Hk.
      destruct Ho as [<-|[<-|[]]]; cbn in *; trivial.
      apply Qltb_lt in Hk. exfalso.
      apply (Qlt_irrefl 0). now apply Qlt_trans with (2 := Hk).
Qed.

Lemma band_starts_at_zero_witness :
  let feed :=
    {| QuickstartScript2.is_ready := true;
       QuickstartScript2.candles_df :=
         [ {| QuickstartScript2.close := 1 # 2;
              QuickstartScript2.bands := None |} ] |} in
  let c :=
    {| current_timestamp := 100; active_orders := [];
       price_by_type := Return (1 # 2); available_balance := 1000;
       raises_on_cancel := fun _ => None;
       raises_on_submit := fun _ => None |} in
  let w := run_ticks [(feed, c)] (mkWorld QuickstartScript2.init []) in
  let order side p :=
    {| trading_pair := "POPCAT-USDT"; is_maker := true; order_type := LIMIT;
       order_side := side; amount := 40; price := p |} in
  QuickstartScript2.apply_price_ceiling_floor_filter
    [order BUY (49 # 100); order SELL (51 # 100)] w
  = (Return [order SELL (51 # 100)], w).
Proof.
  intros feed c w order.
  destruct band_starts_at_zero as (_ & _ & _ & H).
  assert (Hall : Forall (fun t => band_unavailable (fst t)) [(feed, c)])
    by (constructor; [reflexivity|constructor]).
  destruct (H [(feed, c)] [] Hall) as (_ & _ & Hfilter & _).
  apply (Hfilter [order BUY (49 # 100); order SELL (51 # 100)]).
  intros o [<-|[<-|[]]]; reflexivity.
Defined.

(** * Further properties of the scripts *)

(** ** Net profit of a trade history *)


Lemma readable_cons (t : Zapaska.Trade) (rest : list Zapaska.Trade) :
  Forall readable (t :: rest) <-> readable t /\ Forall readable rest.
Proof. apply Forall_cons_iff. Qed.

Lemma net_profit_loop_cases (h : list Zapaska.Trade) (fee acc : Q) :
  (Forall readable h
   /\ exists p,
        Zapaska.net_profit_loop h fee acc = Return p
        /\ p == acc + total_revenue h * (1 - fee) - total_cost h * (1 + fee))
  \/ (~ Forall readable h
      /\ Zapaska.net_profit_loop h fee acc = Raise KeyError).
Proof.
  revert acc. induction h as [|t rest IH]; intro acc.
  - left. split; [constructor|]. exists acc. split; [reflexivity|].
    simpl. ring.
  - rewrite readable_cons. destruct t as [[ty|] co re]; unfold readable; cbn.
    + destruct (String.eqb ty "buy") eqn:Eb.
      * destruct co as [c|]; cbn.
        -- destruct (IH (acc - c * (1 + fee))) as [[Hr (p & Hp & Hq)]|[Hr Hp]].
           ++ left. split; [split; [discriminate|exact Hr]|].
              exists p. split; [exact Hp|]. rewrite Hq.
              destruct re; ring.
           ++ right. split; [tauto|exact Hp].
        -- right. split; [|reflexivity]. intros [H _]. now apply H.
      * destruct (String.eqb ty "sell") eqn:Es.
        -- destruct re as [r|]; cbn.
           ++ destruct (IH (acc + r * (1 - fee)))
                as [[Hr (p & Hp & Hq)]|[Hr Hp]].
              ** left. split; [split; [discriminate|exact Hr]|].
                 exists p. split; [exact Hp|]. rewrite Hq.
                 destruct co; ring.
              ** right. split; [tauto|exact Hp].
           ++ right. split; [|reflexivity]. intros [H _]. now apply H.
        -- destruct (IH acc) as [[Hr (p & Hp & Hq)]|[Hr Hp]].
           ++ left. split; [split; [exact I|exact Hr]|].
              exists p. split; [exact Hp|]. rewrite Hq.
              destruct co, re; ring.
           ++ right. split; [tauto|exact Hp].
    + right. split; [tauto|reflexivity].
Qed.

Lemma calculate_net_profit_value (h : list Zapaska.Trade) (fee p : Q) :
  Zapaska.calculate_net_profit h fee = Return p ->
  Forall readable h
  /\ p == total_revenue h * (1 - fee) - total_cost h * (1 + fee).
Proof.
  unfold Zapaska.calculate_net_profit. intro H.
  destruct (net_profit_loop_cases h fee 0) as [[Hr (q & Hq & Hv)]|[_ He]].
  - split; [exact Hr|]. rewrite H in Hq. injection Hq as <-.
    rewrite Hv. ring.
  - rewrite H in He. discriminate.
Qed.

Lemma calculate_net_profit_returns (h : list Zapaska.Trade) (fee : Q) :
  Forall readable h -> exists p, Zapaska.calculate_net_profit h fee = Return p.
Proof.
  intro Hr. unfold Zapaska.calculate_net_profit.
  destruct (net_profit_loop_cases h fee 0) as [[_ (p & Hp & _)]|[Hn _]];
    [now exists p|contradiction].
Qed.

Lemma total_cost_nonneg (h : list Zapaska.Trade) :
  Forall (fun t => forall c, Zapaska.cost t = Some c -> 0 <= c) h ->
  0 <= total_cost h.
Proof.
  induction 1 as [|t rest Ht _ IH]; simpl; [apply Qle_refl|].
  destruct (Zapaska.type_ t) as [ty|]; trivial.
  destruct (Zapaska.cost t) as [c|]; trivial.
  destruct (String.eqb ty "buy"); trivial.
  specialize (Ht c eq_refl). lra.
Qed.

Lemma total_revenue_nonneg (h : list Zapaska.Trade) :
  Forall (fun t => forall r, Zapaska.revenue t = Some r -> 0 <= r) h ->
  0 <= total_revenue h.
Proof.
  induction 1 as [|t rest Ht _ IH]; simpl; [apply Qle_refl|].
  destruct (Zapaska.type_ t) as [ty|]; trivial.
  destruct (Zapaska.revenue t) as [r|]; trivial.
  destruct (String.eqb ty "buy"); trivial.
  destruct (String.eqb ty "sell"); trivial.
  specialize (Ht r eq_refl). lra.
Qed.



(** X2.  [calculate_net_profit] raises [KeyError] exactly when some trade
    has no ['type'], or is a buy without a ['cost'], or a sell without a
    ['revenue']; otherwise it returns.  A trade of another type is never
    looked into, and a sell needs no cost. *)
Theorem net_profit_raises_on_missing_key (h : list Zapaska.Trade) (fee : Q) :
  (Forall readable h <->
     exists p, Zapaska.calculate_net_profit h fee = Return p)
  /\ (~ Forall readable h <->
        Zapaska.calculate_net_profit h fee = Raise KeyError).
Proof.
  unfold Zapaska.calculate_net_profit.
  destruct (net_profit_loop_cases h fee 0) as [[Hr (p & Hp & _)]|[Hn He]].
  - split; split; intro H.
    + now exists p.
    + exact Hr.
    + contradiction.
    + rewrite Hp in H. discriminate.
  - split; split; intro H.
    + contradiction.
    + destruct H as [p Hp]. rewrite He in Hp. discriminate.
    + exact He.
    + exact Hn.
Qed.

(** X3.  A higher fee never gives a higher net profit: for a readable
    history whose costs and revenues are not negative, and fees
    [fee1 <= fee2], the net profit at [fee2] is at most the one at
    [fee1]. *)
Theorem net_profit_decreases_with_fee
  (h : list Zapaska.Trade) (fee1 fee2 : Q) :
  Forall readable h ->
  Forall (fun t => forall c, Zapaska.cost t = Some c -> 0 <= c) h ->
  Forall (fun t => forall r, Zapaska.revenue t = Some r -> 0 <= r) h ->
  fee1 <= fee2 ->
  exists p1 p2,
    Zapaska.calculate_net_profit h fee1 = Return p1
    /\ Zapaska.calculate_net_profit h fee2 = Return p2
    /\ p2 <= p1.
Proof.
  intros Hr Hc Hv Hf.
  destruct (calculate_net_profit_returns h fee1 Hr) as [p1 H1].
  destruct (calculate_net_profit_returns h fee2 Hr) as [p2 H2].
  exists p1, p2. split; [exact H1|]. split; [exact H2|].
  destruct (calculate_net_profit_value h fee1 p1 H1) as [_ E1].
  destruct (calculate_net_profit_value h fee2 p2 H2) as [_ E2].
  pose proof (total_cost_nonneg h Hc) as Hc0.
  pose proof (total_revenue_nonneg h Hv) as Hv0.
  rewrite E1, E2. nra.
Qed.

Lemma net_profit_decreases_with_fee_witness :
  exists p1 p2,
    Zapaska.calculate_net_profit Zapaska.trade_history (1 # 1000) = Return p1
    /\ Zapaska.calculate_net_profit Zapaska.trade_history (2 # 1000)
       = Return p2
    /\ p2 <= p1.
Proof.
  apply net_profit_decreases_with_fee.
  - repeat constructor; discriminate.
  - repeat constructor; intros c H; cbn in H; try discriminate;
      injection H as <-; discriminate.
  - repeat constructor; intros c H; cbn in H; try discriminate;
      injection H as <-; discriminate.
  - discriminate.
Defined.



(** ** What a step adds to the trace *)

Lemma appends_nothing {S A} (P : event -> Prop) (m : M S A) :
  (forall w, trace (snd (m w)) = trace w) -> appends P m.
Proof.
  intros H w. exists []. rewrite H, app_nil_r. split; [reflexivity|constructor].
Qed.

Lemma appends_emit {S} (P : event -> Prop) (e : event) :
  P e -> appends P (@emit S e).
Proof.
  intros He w. exists [e]. split; [reflexivity|]. now constructor.
Qed.

Lemma appends_bind {S A B} (P : event -> Prop) (m : M S A) (k : A -> M S B) :
  appends P m -> (forall a, appends P (k a)) -> appends P (bind m k).
Proof.
  intros Hm Hk w. unfold bind. destruct (Hm w) as (a1 & E1 & F1).
  destruct (m w) as [[a|e] w1]; cbn [snd] in *.
  - destruct (Hk a w1) as (a2 & E2 & F2). exists (a1 ++ a2).
    rewrite E2, E1, app_assoc. split; [reflexivity|].
    apply Forall_app. now split.
  - now exists a1.
Qed.

Lemma appends_catch {S A} (P : event -> Prop) (m : M S A) (h : exn -> M S A) :
  appends P m -> (forall e, appends P (h e)) -> appends P (catch m h).
Proof.
  intros Hm Hh w. unfold catch. destruct (Hm w) as (a1 & E1 & F1).
  destruct (m w) as [[a|e] w1]; cbn [snd] in *.
  - now exists a1.
  - destruct (Hh e w1) as (a2 & E2 & F2). exists (a1 ++ a2).
    rewrite E2, E1, app_assoc. split; [reflexivity|].
    apply Forall_app. now split.
Qed.

Lemma appends_for_each {S A} (P : event -> Prop) (xs : list A)
  (body : A -> M S unit) :
  (forall x, appends P (body x)) -> appends P (for_each xs body).
Proof.
  intro Hb. induction xs as [|x rest IH]; simpl.
  - now apply appends_nothing.
  - apply appends_bind; auto.
Qed.

Lemma appends_weaken {S A} (P Q : event -> Prop) (m : M S A) :
  (forall e, P e -> Q e) -> appends P m -> appends Q m.
Proof.
  intros HPQ Hm w. destruct (Hm w) as (a & E & F). exists a.
  split; [exact E|]. eapply Forall_impl; eauto.
Qed.

Ltac appends :=
  repeat first
    [ progress intros
    | apply appends_bind | apply appends_catch | apply appends_for_each
    | apply appends_emit;
      first [ reflexivity | eexists; reflexivity ]
    | apply appends_nothing; intros [? ?]; reflexivity
    | match goal with
      | |- appends _ (fail_with ?r) =>
          destruct r; apply appends_nothing; intros [? ?]; reflexivity
      | |- appends _ (match ?x with _ => _ end) => destruct x
      | |- appends _ (if ?x then _ else _) => destruct x
      end ].

Lemma appends_cancel_loop {S} (c : Connector) (exchange : string)
  (orders : list LimitOrder) :
  appends not_submit
    (@for_each S _ orders (fun order => cancel c exchange order)).
Proof. unfold cancel. appends. Qed.

Lemma appends_quickstart_cancel_all_orders (c : Connector) :
  appends not_submit (QuickstartScript2.cancel_all_orders c).
Proof. unfold QuickstartScript2.cancel_all_orders, cancel, log. appends. Qed.

Lemma appends_quickstart_place_orders (c : Connector)
  (proposal : list OrderCandidate) :
  appends not_cancel (QuickstartScript2.place_orders c proposal).
Proof.
  unfold QuickstartScript2.place_orders, QuickstartScript2.place_order,
    buy, sell, log.
  appends.
Qed.

Lemma appends_quickstart_calculate (feed : QuickstartScript2.Candles) :
  appends is_log (QuickstartScript2.calculate_price_ceiling_floor feed).
Proof.
  unfold QuickstartScript2.calculate_price_ceiling_floor, log, lift.
  appends.
Qed.

Lemma appends_quickstart_create_proposal (c : Connector) :
  appends is_log (QuickstartScript2.create_proposal c).
Proof. unfold QuickstartScript2.create_proposal, log, lift. appends. Qed.

Lemma appends_quickstart_filter (proposal : list OrderCandidate) :
  appends is_log (QuickstartScript2.apply_price_ceiling_floor_filter proposal).
Proof.
  unfold QuickstartScript2.apply_price_ceiling_floor_filter, log. appends.
Qed.

Lemma appends_quickstart_adjust (c : Connector)
  (proposal : list OrderCandidate) :
  appends is_log (QuickstartScript2.adjust_proposal_to_budget c proposal).
Proof. unfold QuickstartScript2.adjust_proposal_to_budget, log. appends. Qed.

Lemma appends_rsiamm_create_proposal (cfg : RSIAMMConfig.t)
  (md : RSIAMM.MarketData) (mid : Q) :
  appends is_log (RSIAMM.create_proposal cfg md mid).
Proof.
  unfold RSIAMM.create_proposal, RSIAMM.get_natr, RSIAMM.get_rsi_signal,
    RSIAMM.get_processed_df, log, lift.
  appends.
Qed.

Lemma appends_rsiamm_place_orders (cfg : RSIAMMConfig.t) (c : Connector)
  (proposal : list OrderCandidate) :
  appends not_cancel (RSIAMM.place_orders cfg c proposal).
Proof.
  unfold RSIAMM.place_orders, RSIAMM.place_order, buy, sell. appends.
Qed.

Lemma is_log_not_cancel (e : event) : is_log e -> not_cancel e.
Proof. intros [m ->]. reflexivity. Qed.

Lemma is_log_not_submit (e : event) : is_log e -> not_submit e.
Proof. intros [m ->]. reflexivity. Qed.

Lemma phased_of_appends {S A} (P1 P2 : event -> Prop) (m : M S A) :
  appends P2 m -> phased P1 P2 m.
Proof.
  intros Hm w. destruct (Hm w) as (a & E & F). exists [], a.
  split; [exact E|]. split; [constructor|exact F].
Qed.

Lemma phased_bind {S A B} (P1 P2 : event -> Prop) (m : M S A)
  (k : A -> M S B) :
  appends P1 m -> (forall a, appends P2 (k a)) -> phased P1 P2 (bind m k).
Proof.
  intros Hm Hk w. unfold bind. destruct (Hm w) as (a1 & E1 & F1).
  destruct (m w) as [[a|e] w1]; cbn [snd] in *.
  - destruct (Hk a w1) as (a2 & E2 & F2). exists a1, a2.
    rewrite E2, E1, app_assoc. now repeat split.
  - exists a1, []. rewrite app_nil_r. repeat split; trivial.
Qed.

Lemma phased_catch {S A} (P1 P2 : event -> Prop) (m : M S A)
  (h : exn -> M S A) :
  phased P1 P2 m -> (forall e, appends P2 (h e)) -> phased P1 P2 (catch m h).
Proof.
  intros Hm Hh w. unfold catch. destruct (Hm w) as (a1 & a2 & E1 & F1 & F2).
  destruct (m w) as [[a|e] w1]; cbn [snd] in *.
  - now exists a1, a2.
  - destruct (Hh e w1) as (a3 & E3 & F3). exists a1, (a2 ++ a3).
    rewrite E3, E1, <- !app_assoc. repeat split; trivial.
    apply Forall_app. now split.
Qed.

Lemma phased_after_get_self {S B} (P1 P2 : event -> Prop) (k : S -> M S B) :
  (forall st, phased P1 P2 (k st)) -> phased P1 P2 (bind get_self k).
Proof. intros Hk w. unfold bind, get_self. apply Hk. Qed.

(** X5.  Cancel, then recreate: in a tick of either script, whatever the
    feed holds and whatever the venue raises, no cancellation is made
    after a submission.  What the tick adds to the trace is a part without
    submissions followed by a part without cancellations. *)
Theorem cancellations_precede_submissions :
  (forall (feed : QuickstartScript2.Candles) (c : Connector),
     phased not_submit not_cancel (QuickstartScript2.on_tick feed c))
  /\ (forall (cfg : RSIAMMConfig.t) (md : RSIAMM.MarketData) (c : Connector),
     phased not_submit not_cancel (RSIAMM.on_tick cfg md c)).
Proof.
  split.
  - intros feed c. unfold QuickstartScript2.on_tick.
    apply phased_catch; [|intro e; unfold log; appends].
    apply phased_after_get_self. intro st. unfold when.
    destruct (Qle_bool _ _);
      [|apply phased_of_appends, appends_nothing; intros [? ?]; reflexivity].
    destruct (QuickstartScript2.is_ready feed);
      [|apply phased_of_appends; unfold log; appends].
    apply phased_bind; [apply appends_quickstart_cancel_all_orders|].
    intros _. apply appends_bind;
      [apply (appends_weaken is_log), appends_quickstart_calculate;
       exact is_log_not_cancel|].
    intros _. apply appends_bind;
      [apply (appends_weaken is_log), appends_quickstart_create_proposal;
       exact is_log_not_cancel|].
    intro proposal. apply appends_bind;
      [apply (appends_weaken is_log), appends_quickstart_filter;
       exact is_log_not_cancel|].
    intro filtered. apply appends_bind;
      [apply (appends_weaken is_log), appends_quickstart_adjust;
       exact is_log_not_cancel|].
    intro adjusted. apply appends_bind;
      [apply appends_quickstart_place_orders|].
    unfold log. appends.
  - intros cfg md c. unfold RSIAMM.on_tick.
    destruct (negb (RSIAMM.ready md));
      [apply phased_of_appends, appends_nothing; intros [? ?]; reflexivity|].
    apply phased_after_get_self. intro st. unfold when.
    destruct (Qle_bool _ _);
      [|apply phased_of_appends, appends_nothing; intros [? ?]; reflexivity].
    apply phased_bind;
      [unfold RSIAMM.cancel_all_orders; apply appends_cancel_loop|].
    intros _. apply appends_bind; [unfold lift; appends|].
    intro mid. apply appends_bind; [unfold log; appends|].
    intros _. apply appends_bind;
      [apply (appends_weaken is_log), appends_rsiamm_create_proposal;
       exact is_log_not_cancel|].
    intro proposal. apply appends_bind;
      [apply appends_rsiamm_place_orders|].
    appends.
Qed.

(** X6.  Pricing never touches the venue: the band computation, the
    quoting, the band filter and the budget adjustment of
    [QuickstartScript2], and the quote generator of [RSIAMM], add nothing
    but log lines to the trace, whether they return or raise; the fill
    hook of both scripts adds a log line and a notification. *)
Theorem pricing_steps_only_log :
  (forall feed, appends is_log
                  (QuickstartScript2.calculate_price_ceiling_floor feed))
  /\ (forall c, appends is_log (QuickstartScript2.create_proposal c))
  /\ (forall proposal,
        appends is_log
          (QuickstartScript2.apply_price_ceiling_floor_filter proposal))
  /\ (forall c proposal,
        appends is_log (QuickstartScript2.adjust_proposal_to_budget c proposal))
  /\ (forall cfg md mid, appends is_log (RSIAMM.create_proposal cfg md mid))
  /\ (forall ev,
        appends (fun e => not_cancel e /\ not_submit e)
          (QuickstartScript2.did_fill_order ev))
  /\ (forall cfg ev,
        appends (fun e => not_cancel e /\ not_submit e)
          (RSIAMM.did_fill_order cfg ev)).
Proof.
  split; [exact appends_quickstart_calculate|].
  split; [exact appends_quickstart_create_proposal|].
  split; [exact appends_quickstart_filter|].
  split; [exact appends_quickstart_adjust|].
  split; [exact appends_rsiamm_create_proposal|].
  split.
  - intro ev. unfold QuickstartScript2.did_fill_order, log,
      notify_hb_app_with_timestamp.
    repeat first
      [ progress intros | apply appends_bind | apply appends_catch
      | apply appends_emit; split; reflexivity ].
  - intros cfg ev. unfold RSIAMM.did_fill_order, log,
      notify_hb_app_with_timestamp.
    repeat first
      [ progress intros | apply appends_bind
      | apply appends_emit; split; reflexivity ].
Qed.

(** ** Ticks in sequence *)

Lemma quickstart_tick_cases (feed : QuickstartScript2.Candles) (c : Connector)
  (w : world QuickstartScript2.State) :
  let w' := snd (QuickstartScript2.on_tick feed c w) in
  fst (QuickstartScript2.on_tick feed c w) = Return tt
  /\ (QuickstartScript2.create_timestamp (self w')
      = QuickstartScript2.create_timestamp (self w)
      \/ (QuickstartScript2.create_timestamp (self w) <= current_timestamp c
          /\ QuickstartScript2.create_timestamp (self w')
             = inject_Z QuickstartScript2.order_refresh_time
               + current_timestamp c)).
Proof.
  intro w'. subst w'.
  destruct (Qlt_le_dec (current_timestamp c)
                       (QuickstartScript2.create_timestamp (self w)))
    as [Hidle|Hdue].
  - rewrite (quickstart_tick_idle feed c w Hidle). split; [reflexivity|].
    now left.
  - destruct (QuickstartScript2.is_ready feed) eqn:Hr.
    + destruct (quickstart_tick_cycle feed c w Hr Hdue) as (w' & Hrun & Hs & _).
      rewrite Hrun. split; [reflexivity|]. right. split; [exact Hdue|].
      cbn [snd]. now rewrite Hs.
    + destruct (quickstart_tick_not_ready feed c w Hr) as (Hf & Hs & _).
      split; [exact Hf|]. left. now rewrite Hs.
Qed.

Lemma rsiamm_cycle_fields (cfg : RSIAMMConfig.t) (md : RSIAMM.MarketData)
  (c : Connector) (w : world RSIAMM.State) :
  RSIAMM.ready md = true ->
  RSIAMM.create_timestamp (self w) <= current_timestamp c ->
  match RSIAMM.on_tick cfg md c w with
  | (Return _, w') =>
      self w'
      = {| RSIAMM.create_timestamp :=
             inject_Z (RSIAMMConfig.order_refresh_time cfg)
             + current_timestamp c;
           RSIAMM.last_mid_price := RSIAMM.last_mid_price (self w) |}
  | (Raise _, w') => self w' = self w
  end.
Proof.
  intros Hr Hd. rewrite (rsiamm_tick_due cfg md c w Hr Hd).
  unfold RSIAMM.cancel_all_orders.
  unfold bind at 1. rewrite cancel_loop_run.
  destruct (cancel_failure c (active_orders c)) as [e|]; [reflexivity|].
  unfold bind at 1. unfold lift at 1.
  destruct (price_by_type c) as [mid|e]; [|reflexivity].
  unfold bind at 1. unfold log at 1, emit at 1. cbn [self trace].
  unfold bind at 1.
  match goal with
  | |- context [RSIAMM.create_proposal cfg md mid ?w1] =>
      pose proof (steady_rsiamm_create_proposal cfg md mid w1) as Hc;
      destruct (RSIAMM.create_proposal cfg md mid w1) as [[proposal|e] w2]
  end; cbn [snd self] in Hc; [|exact Hc].
  unfold bind at 1. rewrite rsiamm_place_orders_run.
  destruct (submit_failure c proposal) as [e|]; [exact Hc|].
  cbn. now rewrite Hc.
Qed.

(** X7.  [QuickstartScript2.on_tick] never raises: for every feed, every
    venue behaviour (cancellations, submissions and the price query may
    all raise) and every state it returns normally; so do its steps
    [cancel_all_orders], [calculate_price_ceiling_floor] and
    [place_orders]. *)
Theorem quickstart_tick_never_raises :
  (forall feed c w, fst (QuickstartScript2.on_tick feed c w) = Return tt)
  /\ (forall c w, fst (QuickstartScript2.cancel_all_orders c w) = Return tt)
  /\ (forall feed w,
        fst (QuickstartScript2.calculate_price_ceiling_floor feed w)
        = Return tt)
  /\ (forall c proposal w,
        fst (QuickstartScript2.place_orders c proposal w) = Return tt).
Proof.
  split; [intros feed c w; apply quickstart_tick_cases|].
  split; [|split].
  - intros c w.
    destruct (quickstart_cancel_all_orders_step c w) as (w' & H & _).
    now rewrite H.
  - intros feed w.
    destruct (quickstart_calculate_step feed w) as (w' & H & _).
    now rewrite H.
  - intros c proposal w.
    destruct (quickstart_place_orders_step c proposal w) as (w' & H & _).
    now rewrite H.
Qed.

(** X8.  Orders are refreshed at most once per refresh interval: after a
    tick that ran the cycle at time [now] (in [RSIAMM]: and returned), a
    tick at any time strictly before [order_refresh_time + now] is a
    no-op, whatever the feed and the venue are by then: same fields, no
    call, no log. *)
Theorem no_refresh_within_the_interval :
  (forall feed c w feed' c',
     QuickstartScript2.is_ready feed = true ->
     QuickstartScript2.create_timestamp (self w) <= current_timestamp c ->
     current_timestamp c'
     < inject_Z QuickstartScript2.order_refresh_time + current_timestamp c ->
     let w1 := snd (QuickstartScript2.on_tick feed c w) in
     QuickstartScript2.on_tick feed' c' w1 = (Return tt, w1))
  /\ (forall cfg md c w md' c',
     RSIAMM.ready md = true ->
     RSIAMM.create_timestamp (self w) <= current_timestamp c ->
     fst (RSIAMM.on_tick cfg md c w) = Return tt ->
     current_timestamp c'
     < inject_Z (RSIAMMConfig.order_refresh_time cfg) + current_timestamp c ->
     let w1 := snd (RSIAMM.on_tick cfg md c w) in
     RSIAMM.on_tick cfg md' c' w1 = (Return tt, w1)).
Proof.
  split.
  - intros feed c w feed' c' Hr Hd Hlt w1. apply quickstart_tick_idle.
    destruct (quickstart_tick_cycle feed c w Hr Hd) as (w' & Hrun & Hs & _).
    subst w1. rewrite Hrun. cbn [snd]. now rewrite Hs.
  - intros cfg md c w md' c' Hr Hd Hret Hlt w1. apply rsiamm_tick_idle.
    pose proof (rsiamm_cycle_outcome cfg md c w Hr Hd) as H. subst w1.
    destruct (RSIAMM.on_tick cfg md c w) as [[[]|e] w']; cbn [fst snd] in *.
    + now rewrite H.
    + discriminate.
Qed.

Lemma no_refresh_within_the_interval_witness :
  let c :=
    {| current_timestamp := 100; active_orders := [];
       price_by_type := Return 1; available_balance := 1000;
       raises_on_cancel := fun _ => None;
       raises_on_submit := fun _ => None |} in
  let c' :=
    {| current_timestamp := 114; active_orders := [];
       price_by_type := Return 2; available_balance := 1000;
       raises_on_cancel := fun _ => None;
       raises_on_submit := fun _ => None |} in
  let feed :=
    {| QuickstartScript2.is_ready := true;
       QuickstartScript2.candles_df := [] |} in
  let w1 := snd (QuickstartScript2.on_tick feed c
                   (mkWorld QuickstartScript2.init [])) in
  QuickstartScript2.on_tick feed c' w1 = (Return tt, w1).
Proof.
  intros c c' feed.
  apply (proj1 no_refresh_within_the_interval feed c
           (mkWorld QuickstartScript2.init []) feed c').
  - reflexivity.
  - vm_compute. discriminate.
  - reflexivity.
Defined.

(** X9.  The refresh time never moves back.  Over any tick of
    [QuickstartScript2], and so over any sequence of ticks,
    [create_timestamp] does not decrease; over any tick of [RSIAMM] it
    does not decrease when [order_refresh_time] is not negative, and
    [last_mid_price] is never assigned. *)
Theorem refresh_time_never_decreases :
  (forall ticks w,
     QuickstartScript2.create_timestamp (self w)
     <= QuickstartScript2.create_timestamp (self (run_ticks ticks w)))
  /\ (forall cfg md c w,
        let w' := snd (RSIAMM.on_tick cfg md c w) in
        RSIAMM.last_mid_price (self w') = RSIAMM.last_mid_price (self w)
        /\ ((0 <= RSIAMMConfig.order_refresh_time cfg)%Z ->
            RSIAMM.create_timestamp (self w)
            <= RSIAMM.create_timestamp (self w'))).
Proof.
  split.
  - intro ticks. induction ticks as [|[feed c] rest IH]; intro w; simpl.
    + apply Qle_refl.
    + eapply Qle_trans; [|apply IH].
      destruct (quickstart_tick_cases feed c w) as [_ [E|[Hd E]]];
        rewrite E; [apply Qle_refl|].
      unfold QuickstartScript2.order_refresh_time.
      eapply Qle_trans; [exact Hd|].
      rewrite <- (Qplus_0_l (current_timestamp c)) at 1.
      apply Qplus_le_l. discriminate.
  - intros cfg md c w w'. subst w'.
    destruct (RSIAMM.ready md) eqn:Hr;
      [|rewrite (rsiamm_tick_not_ready cfg md c w Hr); split;
        [reflexivity|intros _; apply Qle_refl]].
    destruct (Qlt_le_dec (current_timestamp c)
                         (RSIAMM.create_timestamp (self w))) as [Hidle|Hd];
      [rewrite (rsiamm_tick_idle cfg md c w Hidle); split;
       [reflexivity|intros _; apply Qle_refl]|].
    pose proof (rsiamm_cycle_fields cfg md c w Hr Hd) as H.
    destruct (RSIAMM.on_tick cfg md c w) as [[[]|e] w']; cbn [snd];
      rewrite H; cbn.
    + split; [reflexivity|]. intro H0.
      eapply Qle_trans; [exact Hd|].
      rewrite <- (Qplus_0_l (current_timestamp c)) at 1.
      apply Qplus_le_l.
      change 0 with (inject_Z 0). now rewrite <- Zle_Qle.
    + split; [reflexivity|intros _; apply Qle_refl].
Qed.

(** ** The quotes of QuickstartScript2 *)



(** X11.  When the price query raises, a refresh cycle of
    [QuickstartScript2] still cancels the resting orders and still moves
    the refresh time to [order_refresh_time + now], and it submits
    nothing. *)
Theorem quickstart_cycle_without_price
  (feed : QuickstartScript2.Candles) (c : Connector)
  (w : world QuickstartScript2.State) (e : exn) :
  QuickstartScript2.is_ready feed = true ->
  QuickstartScript2.create_timestamp (self w) <= current_timestamp c ->
  price_by_type c = Raise e ->
  exists w',
    QuickstartScript2.on_tick feed c w = (Return tt, w')
    /\ submits (trace w') = submits (trace w)
    /\ cancels (trace w')
       = cancels (trace w)
         ++ map (cancel_event QuickstartScript2.exchange)
                (attempted_cancels c (active_orders c))
    /\ QuickstartScript2.create_timestamp (self w')
       = inject_Z QuickstartScript2.order_refresh_time + current_timestamp c.
Proof.
  intros Hr Hd Hp.
  destruct (quickstart_tick_cycle feed c w Hr Hd)
    as (w' & Hrun & Hs & Hsub & Hcan).
  exists w'. split; [exact Hrun|]. split; [|split; [exact Hcan|]].
  - rewrite Hsub. unfold cycle_proposal, adjust_candidates_all_or_none.
    rewrite Hp. cbn [filter total_notional].
    destruct (Qltb _ _); cbn; now rewrite app_nil_r.
  - now rewrite Hs.
Qed.

Lemma quickstart_cycle_without_price_witness :
  let c :=
    {| current_timestamp := 100;
       active_orders := [ {| lo_trading_pair := "POPCAT-USDT";
                             client_order_id := 7 |} ];
       price_by_type := Raise (ConnectorError 3); available_balance := 1000;
       raises_on_cancel := fun _ => None;
       raises_on_submit := fun _ => None |} in
  let feed :=
    {| QuickstartScript2.is_ready := true;
       QuickstartScript2.candles_df := [] |} in
  let w := mkWorld QuickstartScript2.init [] in
  exists w',
    QuickstartScript2.on_tick feed c w = (Return tt, w')
    /\ submits (trace w') = submits (trace w)
    /\ cancels (trace w')
       = cancels (trace w)
         ++ map (cancel_event QuickstartScript2.exchange)
                (attempted_cancels c (active_orders c))
    /\ QuickstartScript2.create_timestamp (self w')
       = inject_Z QuickstartScript2.order_refresh_time + current_timestamp c.
Proof.
  intros c feed w.
  apply (quickstart_cycle_without_price feed c w (ConnectorError 3)).
  - reflexivity.
  - vm_compute. discriminate.
  - reflexivity.
Defined.



(** ** Laws of the band filter *)

Lemma filter_idempotent {A} (f : A -> bool) (l : list A) :
  filter f (filter f l) = filter f l.
Proof.
  induction l as [|x l IH]; simpl; trivial.
  destruct (f x) eqn:E; simpl; [rewrite E, IH|]; trivial.
Qed.

Lemma filter_shorter {A} (f : A -> bool) (l : list A) :
  (List.length (filter f l) <= List.length l)%nat.
Proof.
  induction l as [|x l IH]; simpl; [constructor|].
  destruct (f x); simpl; [now apply le_n_S|now apply le_S].
Qed.

Lemma filter_all {A} (f : A -> bool) (l : list A) :
  Forall (fun x => f x = true) l -> filter f l = l.
Proof.
  induction 1 as [|x l Hx _ IH]; simpl; trivial. now rewrite Hx, IH.
Qed.

(** X13.  Laws of [apply_price_ceiling_floor_filter], for every state: it
    returns without logging; filtering its output again changes nothing;
    the output is no longer than the input and holds BUY and SELL
    proposals only; a list filters piece by piece,
    [filter (p1 ++ p2) = filter p1 ++ filter p2]; and a list of BUY and
    SELL proposals all priced strictly between floor and ceiling passes
    unchanged. *)
Theorem band_filter_laws (w : world QuickstartScript2.State) :
  let C := QuickstartScript2.price_ceiling (self w) in
  let F := QuickstartScript2.price_floor (self w) in
  let run p := QuickstartScript2.apply_price_ceiling_floor_filter p w in
  (forall proposal,
     exists out,
       run proposal = (Return out, w)
       /\ run out = (Return out, w)
       /\ (List.length out <= List.length proposal)%nat
       /\ (forall o, In o out -> order_side o = BUY \/ order_side o = SELL))
  /\ (forall p1 p2 out1 out2,
        run p1 = (Return out1, w) -> run p2 = (Return out2, w) ->
        run (p1 ++ p2) = (Return (out1 ++ out2), w))
  /\ (forall proposal,
        Forall (fun o => (order_side o = BUY \/ order_side o = SELL)
                         /\ F < price o /\ price o < C) proposal ->
        run proposal = (Return proposal, w)).
Proof.
  intros C F run. subst run. cbv beta. split; [|split].
  - intro proposal. eexists.
    split; [apply apply_price_ceiling_floor_filter_run|].
    rewrite apply_price_ceiling_floor_filter_run, filter_idempotent.
    split; [reflexivity|]. split; [apply filter_shorter|].
    intros o Ho. apply filter_In in Ho. destruct Ho as [_ Hk].
    unfold band_keeps in Hk. destruct (order_side o); auto. discriminate.
  - intros p1 p2 out1 out2.
    rewrite !apply_price_ceiling_floor_filter_run, filter_app.
    intros H1 H2. injection H1 as <-. injection H2 as <-. reflexivity.
  - intros proposal Hin. rewrite apply_price_ceiling_floor_filter_run.
    rewrite filter_all; [reflexivity|].
    eapply Forall_impl; [|exact Hin].
    intros o ([Hs|Hs] & Hf & Hc); unfold band_keeps; rewrite Hs;
      now apply Qltb_lt.
Qed.

Lemma band_filter_laws_witness :
  let w :=
    mkWorld {| QuickstartScript2.create_timestamp := 0;
               QuickstartScript2.price_ceiling := 105;
               QuickstartScript2.price_floor := 95 |} [] in
  let order side p :=
    {| trading_pair := "POPCAT-USDT"; is_maker := true; order_type := LIMIT;
       order_side := side; amount := 40; price := p |} in
  QuickstartScript2.apply_price_ceiling_floor_filter
    [order BUY 98; order SELL 102] w
  = (Return [order BUY 98; order SELL 102], w).
Proof.
  intros w order.
  apply (proj2 (proj2 (band_filter_laws w))).
  constructor; [split; [now left|split; reflexivity]|].
  constructor; [split; [now right|split; reflexivity]|].
  constructor.
Defined.



(** ** More on the quote generator of RSIAMM *)



Lemma signal_of_antitone (cfg : RSIAMMConfig.t) (r1 r2 : Q) :
  inject_Z (RSIAMMConfig.rsi_low cfg) <= inject_Z (RSIAMMConfig.rsi_high cfg) ->
  r1 <= r2 -> (signal_of cfg r2 <= signal_of cfg r1)%Z.
Proof.
  intros Hlh Hr.
  destruct (signal_of_cases cfg r1)
    as [[H1 E1]|[(H1 & L1 & E1)|(H1 & L1 & E1)]];
    destruct (signal_of_cases cfg r2)
      as [[H2 E2]|[(H2 & L2 & E2)|(H2 & L2 & E2)]];
    rewrite E1, E2; try discriminate;
    exfalso;
    set (high := inject_Z (RSIAMMConfig.rsi_high cfg)) in *;
    set (low := inject_Z (RSIAMMConfig.rsi_low cfg)) in *.
  - apply H2. lra.
  - apply H2. lra.
  - apply L1. lra.
Qed.

(** X16.  [get_rsi_signal] returns -1, 0 or 1, and with
    [rsi_low <= rsi_high] the signal never rises with the reading: a
    higher RSI gives a signal that is lower or the same. *)
Theorem rsi_signal_is_antitone
  (cfg : RSIAMMConfig.t) (md1 md2 : RSIAMM.MarketData) (r1 r2 : Q)
  (w : world RSIAMM.State) :
  iat_last_last (RSIAMM.processed_df md1) = Return r1 ->
  iat_last_last (RSIAMM.processed_df md2) = Return r2 ->
  (RSIAMMConfig.rsi_low cfg <= RSIAMMConfig.rsi_high cfg)%Z ->
  r1 <= r2 ->
  exists s1 s2 w1 w2,
    RSIAMM.get_rsi_signal cfg md1 w = (Return s1, w1)
    /\ RSIAMM.get_rsi_signal cfg md2 w = (Return s2, w2)
    /\ (-1 <= s2 <= s1)%Z /\ (s1 <= 1)%Z.
Proof.
  intros H1 H2 Hlh Hr.
  destruct (get_rsi_signal_run cfg md1 r1 w H1) as (l1 & E1 & _).
  destruct (get_rsi_signal_run cfg md2 r2 w H2) as (l2 & E2 & _).
  eexists _, _, _, _. split; [exact E1|]. split; [exact E2|].
  assert (Hq : inject_Z (RSIAMMConfig.rsi_low cfg)
               <= inject_Z (RSIAMMConfig.rsi_high cfg))
    by (rewrite <- Zle_Qle; exact Hlh).
  assert (Ha := signal_of_antitone cfg r1 r2 Hq Hr).
  split; [split; [|exact Ha]|].
  - destruct (signal_of_cases cfg r2)
      as [[_ E]|[(_ & _ & E)|(_ & _ & E)]]; rewrite E; discriminate.
  - destruct (signal_of_cases cfg r1)
      as [[_ E]|[(_ & _ & E)|(_ & _ & E)]]; rewrite E; discriminate.
Qed.

Lemma rsi_signal_is_antitone_witness :
  exists s1 s2 w1 w2,
    RSIAMM.get_rsi_signal RSIAMMConfig.default
      {| RSIAMM.ready := true; RSIAMM.processed_df := [[25]];
         RSIAMM.natr := None |} (mkWorld RSIAMM.init []) = (Return s1, w1)
    /\ RSIAMM.get_rsi_signal RSIAMMConfig.default
         {| RSIAMM.ready := true; RSIAMM.processed_df := [[75]];
            RSIAMM.natr := None |} (mkWorld RSIAMM.init []) = (Return s2, w2)
    /\ (-1 <= s2 <= s1)%Z /\ (s1 <= 1)%Z.
Proof.
  apply (rsi_signal_is_antitone RSIAMMConfig.default
           {| RSIAMM.ready := true; RSIAMM.processed_df := [[25]];
              RSIAMM.natr := None |}
           {| RSIAMM.ready := true; RSIAMM.processed_df := [[75]];
              RSIAMM.natr := None |} 25 75 (mkWorld RSIAMM.init []));
    try reflexivity; vm_compute; discriminate.
Defined.

(** X17.  A reading that is not there makes the quote generator raise
    before it logs or returns anything: an empty NATR series, an empty
    frame or an empty last row raise [IndexError] out of
    [create_proposal], and the world is as it was. *)
Theorem create_proposal_raises_on_empty_readings
  (cfg : RSIAMMConfig.t) (md : RSIAMM.MarketData) (mid : Q)
  (w : world RSIAMM.State) :
  (RSIAMM.natr md = Some [] ->
     RSIAMM.create_proposal cfg md mid w = (Raise IndexError, w))
  /\ (forall series n,
        RSIAMM.natr md = Some series -> iloc_last series = Return n ->
        RSIAMM.processed_df md = []
        \/ (exists df, RSIAMM.processed_df md = df ++ [[]]) ->
        RSIAMM.create_proposal cfg md mid w = (Raise IndexError, w)).
Proof.
  split.
  - intro H. unfold RSIAMM.create_proposal, RSIAMM.get_natr, bind.
    now rewrite H.
  - intros series n Hs Hn Hdf.
    unfold RSIAMM.create_proposal. unfold bind at 1.
    rewrite (get_natr_run md series n w Hs Hn).
    unfold RSIAMM.get_rsi_signal, RSIAMM.get_processed_df, bind, ret, lift.
    assert (Hi : iat_last_last (RSIAMM.processed_df md) = Raise IndexError).
    { destruct Hdf as [->|[df ->]]; [reflexivity|].
      unfold iat_last_last. now rewrite rev_app_distr. }
    now rewrite Hi.
Qed.

Lemma create_proposal_raises_on_empty_readings_witness :
  RSIAMM.create_proposal RSIAMMConfig.default
    {| RSIAMM.ready := true; RSIAMM.processed_df := [];
       RSIAMM.natr := Some [1] |} 100 (mkWorld RSIAMM.init [])
  = (Raise IndexError, mkWorld RSIAMM.init []).
Proof.
  apply (proj2 (create_proposal_raises_on_empty_readings
                  RSIAMMConfig.default
                  {| RSIAMM.ready := true; RSIAMM.processed_df := [];
                     RSIAMM.natr := Some [1] |} 100
                  (mkWorld RSIAMM.init [])) [1] 1);
    [reflexivity|reflexivity|now left].
Defined.

(** ** The status text of RSIAMM *)





(** ** A cancellation that raises in QuickstartScript2 *)

Lemma attempted_cancels_until_failure (c : Connector)
  (before after : list LimitOrder) (o : LimitOrder) (e : exn) :
  Forall (fun x => raises_on_cancel c x = None) before ->
  raises_on_cancel c o = Some e ->
  attempted_cancels c (before ++ o :: after) = before ++ [o].
Proof.
  intros Hb Ho. induction Hb as [|x rest Hx _ IH]; simpl.
  - now rewrite Ho.
  - now rewrite Hx, IH.
Qed.

(** X19.  In [QuickstartScript2] the handler of [cancel_all_orders] is
    around the whole loop: when the cancellation of a resting order
    raises, the orders listed after it are not cancelled in that cycle,
    while the cycle itself goes on, submits what it would have submitted
    and moves the refresh time. *)
Theorem quickstart_cancel_loop_stops_at_failure
  (feed : QuickstartScript2.Candles) (c : Connector)
  (w : world QuickstartScript2.State)
  (before after : list LimitOrder) (o : LimitOrder) (e : exn) :
  QuickstartScript2.is_ready feed = true ->
  QuickstartScript2.create_timestamp (self w) <= current_timestamp c ->
  active_orders c = before ++ o :: after ->
  Forall (fun x => raises_on_cancel c x = None) before ->
  raises_on_cancel c o = Some e ->
  exists w',
    QuickstartScript2.on_tick feed c w = (Return tt, w')
    /\ cancels (trace w')
       = cancels (trace w)
         ++ map (cancel_event QuickstartScript2.exchange) (before ++ [o])
    /\ submits (trace w')
       = submits (trace w)
         ++ flat_map (submission QuickstartScript2.exchange)
              (cycle_proposal feed (without_failures c) (self w))
    /\ QuickstartScript2.create_timestamp (self w')
       = inject_Z QuickstartScript2.order_refresh_time + current_timestamp c.
Proof.
  intros Hr Hd Ha Hb Ho.
  destruct (quickstart_tick_cycle feed c w Hr Hd)
    as (w' & Hrun & Hs & Hsub & Hcan).
  exists w'. split; [exact Hrun|]. split; [|split].
  - rewrite Hcan, Ha.
    now rewrite (attempted_cancels_until_failure c before after o e Hb Ho).
  - exact Hsub.
  - now rewrite Hs.
Qed.

Lemma quickstart_cancel_loop_stops_at_failure_witness :
  let o1 := {| lo_trading_pair := "POPCAT-USDT"; client_order_id := 1 |} in
  let o2 := {| lo_trading_pair := "POPCAT-USDT"; client_order_id := 2 |} in
  let o3 := {| lo_trading_pair := "POPCAT-USDT"; client_order_id := 3 |} in
  let c :=
    {| current_timestamp := 100; active_orders := [o1] ++ o2 :: [o3];
       price_by_type := Return 1; available_balance := 1000;
       raises_on_cancel :=
         fun o => if Nat.eqb (client_order_id o) 2
                  then Some (ConnectorError 2) else None;
       raises_on_submit := fun _ => None |} in
  let feed :=
    {| QuickstartScript2.is_ready := true;
       QuickstartScript2.candles_df := [] |} in
  let w := mkWorld QuickstartScript2.init [] in
  exists w',
    QuickstartScript2.on_tick feed c w = (Return tt, w')
    /\ cancels (trace w')
       = cancels (trace w)
         ++ map (cancel_event QuickstartScript2.exchange) ([o1] ++ [o2])
    /\ submits (trace w')
       = submits (trace w)
         ++ flat_map (submission QuickstartScript2.exchange)
              (cycle_proposal feed (without_failures c) (self w))
    /\ QuickstartScript2.create_timestamp (self w')
       = inject_Z QuickstartScript2.order_refresh_time + current_timestamp c.
Proof.
  intros o1 o2 o3 c feed w.
  apply (quickstart_cancel_loop_stops_at_failure feed c w [o1] [o3] o2
           (ConnectorError 2)).
  - reflexivity.
  - vm_compute. discriminate.
  - reflexivity.
  - constructor; [reflexivity|constructor].
  - reflexivity.
Defined.
